(** * A shallow embedding of two aws-cdk construct facades

    - [ApiGateway]: the [RestApi] construct (restapi.ts);
    - [Iam]: the [Group] construct (packages/@aws-cdk/aws-iam/lib/group.ts).

    Both classes are thin layers over collaborators that live in other files
    (the construct tree, the generated CloudFormation resources, [Stage],
    [Deployment], [Policy], [User], ...).  The methods of the two classes are
    transcribed statement by statement; collaborators whose code is not
    part of the two files are either abstract (section variables) or small
    records that only remember what they were given. *)

From Stdlib Require Import Ascii String ZArith List Bool Lia.
From stdpp Require Import base option list gmap strings.
Import ListNotations.

Set Default Proof Using "Type".

(** ** Values shared by both modules *)

(** A JavaScript [throw new Error(msg)].  All errors of the two files are
    plain [Error] objects; they are told apart here by the statement that
    throws them, and [message] gives back the text of each one.  A failure
    inside a collaborator is kept apart as [Foreign]. *)
Inductive Error (F : Type) : Type :=
  | StateError                       (* restapi.ts, urlForPath *)
  | ValidationError (path : string)  (* restapi.ts, executeApiArn *)
  | ConfigurationConflict            (* restapi.ts, configureDeployment *)
  | Foreign (e : F).
Arguments StateError {F}.
Arguments ValidationError {F} path.
Arguments ConfigurationConflict {F}.
Arguments Foreign {F} e.

(** The double-quote character (code 34), for the messages that quote a name. *)
Definition dq : string := String (Ascii.ascii_of_nat 34) EmptyString.

Definition message {F} (foreign_message : F -> string) (e : Error F) : string :=
  match e with
  | StateError =>
      "Cannot determine deployment stage for API from " +:+ dq +:+ "deploymentStage"
      +:+ dq +:+ ". Use " +:+ dq +:+ "deploy" +:+ dq +:+ " or explicitly set " +:+ dq
      +:+ "deploymentStage" +:+ dq
  | ValidationError path =>
      dq +:+ "path" +:+ dq +:+ " must begin with a " +:+ dq +:+ "/" +:+ dq +:+ ": '" +:+ path +:+ "'"
  | ConfigurationConflict => "Cannot set 'deployOptions' if 'deploy' is disabled"
  | Foreign e => foreign_message e
  end.

(** Either a returned value or a thrown error. *)
Inductive Result (F A : Type) : Type :=
  | Ok (a : A)
  | Throw (e : Error F).
Arguments Ok {F A} a.
Arguments Throw {F A} e.

Definition bind {F A B} (r : Result F A) (k : A -> Result F B) : Result F B :=
  match r with
  | Ok a => k a
  | Throw e => Throw e
  end.

Notation "x <-! r ;; k" := (bind r (fun x => k))
  (at level 100, r at next level, right associativity).

Definition returns {F A} (r : Result F A) : Prop := exists a, r = Ok a.

(** The outcome of a call into a collaborator: what it throws is [Foreign]. *)
Definition foreign {F A} (r : F + A) : Result F A :=
  match r with
  | inl e => Throw (Foreign e)
  | inr a => Ok a
  end.

(** A value that is only known at deploy time: the [ref] of a generated
    resource, or one of its attributes.  Resources are named by the path of
    their construct. *)
Inductive Token : Type :=
  | Ref (path : list string)
  | GetAtt (path : list string) (attribute : string).

(** A string that may be a literal or a deploy-time token. *)
Inductive Text : Type :=
  | Lit (s : string)
  | Tok (t : Token).

(** The argument of [cdk.Arn.fromComponents]. *)
Record ArnComponents : Type := {
  service : string;
  resource : Text;
  sep : option string;
  resourceName : option string;
  region : option string;
  account : option string
}.

(** [s.startsWith(p)] *)
Definition startsWith (p s : string) : bool := String.prefix p s.

(** ** restapi.ts *)
Module ApiGateway.

Inductive ApiKeySourceType := Header | Authorizer.
Inductive EndpointType := Edge | Regional | Private.

Section RestApi.

(** Types of other files that restapi.ts only passes around. *)
Context {Integration Method PolicyDocument StageSettings Arn Url ForeignError : Type}.

(** Modelled from the spec: [StageOptions] of ./stage is not part of this
    file.  "one child stage named by deployOptions.stageName": the options
    have an optional [stageName], the only one this file reads; the others
    are carried along unread. *)
Record StageOptions : Type := {
  stageName : option string;
  stageSettings : StageSettings
}.

Record RestApiProps : Type := {
  deploy : option bool;
  deployOptions : option StageOptions;
  retainDeployments : option bool;
  restApiName : option string;
  parameters : option (gmap string string);
  policy : option PolicyDocument;
  description : option string;
  apiKeySourceType : option ApiKeySourceType;
  binaryMediaTypes : option (list string);
  endpointTypes : option (list EndpointType);
  failOnWarnings : option bool;
  minimumCompressionSize : option Z;
  cloneFrom : option Text;            (* the [restApiId] of the RestApiRef *)
  cloudWatchRole : option bool;
  defaultIntegration : option Integration
}.

(** [props: RestApiProps = { }] *)
Definition noProps : RestApiProps :=
  {| deploy := None; deployOptions := None; retainDeployments := None;
     restApiName := None; parameters := None; policy := None;
     description := None; apiKeySourceType := None; binaryMediaTypes := None;
     endpointTypes := None; failOnWarnings := None;
     minimumCompressionSize := None; cloneFrom := None;
     cloudWatchRole := None; defaultIntegration := None |}.

(** The properties handed to [cloudformation.RestApiResource]. *)
Record RestApiResourceProps : Type := {
  cfn_restApiName : string;
  cfn_description : option string;
  cfn_policy : option PolicyDocument;
  cfn_failOnWarnings : option bool;
  cfn_minimumCompressionSize : option Z;
  cfn_binaryMediaTypes : option (list string);
  cfn_endpointConfiguration : option (list EndpointType);
  cfn_apiKeySourceType : option ApiKeySourceType;
  cfn_cloneFrom : option Text;
  cfn_parameters : option (gmap string string)
}.

(** Modelled from the spec: the [Deployment] class of ./deployment is not
    part of this file.  "an immutable snapshot of an API's configuration": it
    remembers what [new Deployment(this, id, props)] was given ([api] is kept
    as the id of the api it points to). *)
Record Deployment : Type := {
  deployment_id : string;
  deployment_description : string;
  deployment_api : Text;
  deployment_retainDeployments : option bool
}.

(** Modelled from the spec: the [Stage] class of ./stage is not part of this
    file.  "a named, mutable pointer to a specific deployment": it remembers
    what [new Stage(this, id, { deployment, ...options })] was given. *)
Record Stage : Type := {
  stage_id : string;
  stage_deployment : Deployment;
  stage_options : option StageOptions
}.

Record RoleProps : Type := {
  assumedBy : string;                 (* the service of the ServicePrincipal *)
  managedPolicyArns : list Arn
}.

(** [role.roleArn] of the [iam.Role] created at the path [role].  What the
    arn of a role is made of is decided in aws-iam, not in this file, which
    only passes it on: it is kept as it is written. *)
Inductive RoleArn : Type :=
  | roleArn (role : list string).

Record AccountResource : Type := {
  cloudWatchRoleArn : RoleArn;
  dependencies : list string          (* addDependency *)
}.

(** The constructs created with [this] as their parent. *)
Inductive Child : Type :=
  | ChildResource (p : RestApiResourceProps)
  | ChildDeployment (d : Deployment)
  | ChildStage (s : Stage)
  | ChildOutput (value : Url)
  | ChildRole (p : RoleProps)
  | ChildAccount (a : AccountResource).

(** The fields of a [RestApi] object, and its children in creation order. *)
Record RestApi : Type := {
  path : list string;                 (* the path of the parent, then [id] *)
  children : list (string * Child);
  restApiId : Text;
  resourceId : Text;
  resourcePath : string;
  this_defaultIntegration : option Integration;
  latestDeployment : option Deployment;
  deploymentStage : option Stage;
  methods : list Method
}.

(** Collaborators of restapi.ts whose results it uses.  Their code is in
    other files: [cdk.Arn.fromComponents] is any function of the components,
    [Stage.urlForPath] any function of the stage and the path that returns a
    url or throws an error of its own. *)
Variable Arn_fromComponents : ArnComponents -> Arn.
Variable Stage_urlForPath : Stage -> string -> ForeignError + Url.

#[local] Abbreviation result := (Result ForeignError).

Definition addChild (name : string) (c : Child) (this : RestApi) : RestApi :=
  {| path := path this;
     children := children this ++ [(name, c)];
     restApiId := restApiId this;
     resourceId := resourceId this;
     resourcePath := resourcePath this;
     this_defaultIntegration := this_defaultIntegration this;
     latestDeployment := latestDeployment this;
     deploymentStage := deploymentStage this;
     methods := methods this |}.

Definition set_latestDeployment (d : option Deployment) (this : RestApi) : RestApi :=
  {| path := path this;
     children := children this;
     restApiId := restApiId this;
     resourceId := resourceId this;
     resourcePath := resourcePath this;
     this_defaultIntegration := this_defaultIntegration this;
     latestDeployment := d;
     deploymentStage := deploymentStage this;
     methods := methods this |}.

Definition set_deploymentStage (s : option Stage) (this : RestApi) : RestApi :=
  {| path := path this;
     children := children this;
     restApiId := restApiId this;
     resourceId := resourceId this;
     resourcePath := resourcePath this;
     this_defaultIntegration := this_defaultIntegration this;
     latestDeployment := latestDeployment this;
     deploymentStage := s;
     methods := methods this |}.

Definition set_defaultIntegration (i : option Integration) (this : RestApi) : RestApi :=
  {| path := path this;
     children := children this;
     restApiId := restApiId this;
     resourceId := resourceId this;
     resourcePath := resourcePath this;
     this_defaultIntegration := i;
     latestDeployment := latestDeployment this;
     deploymentStage := deploymentStage this;
     methods := methods this |}.

(** [urlForPath(path: string = '/')] *)
Definition urlForPath (this : RestApi) (path : option string) : result Url :=
  let path := default "/" path in
  match deploymentStage this with
  | None => Throw StateError
  | Some stage => foreign (Stage_urlForPath stage path)
  end.

(** [get url()] *)
Definition url (this : RestApi) : result Url := urlForPath this None.

(** [executeApiArn(method = '*', path = '/*', stage = '*')] *)
Definition executeApiArn (this : RestApi) (method path stage : option string)
  : result Arn :=
  let method := default "*" method in
  let path := default "/*" path in
  let stage := default "*" stage in
  if negb (startsWith "/" path) then Throw (ValidationError path)
  else Ok (Arn_fromComponents
             {| service := "execute-api";
                resource := restApiId this;
                sep := Some "/";
                resourceName := Some (stage +:+ "/" +:+ method +:+ path);
                region := None;
                account := None |}).

(** [validate()] *)
Definition validate (this : RestApi) : list string :=
  if Nat.eqb (length (methods this)) 0
  then ["The REST API doesn't contain any methods"]
  else [].

(** [_attachMethod(method)] *)
Definition _attachMethod (m : Method) (this : RestApi) : RestApi :=
  {| path := path this;
     children := children this;
     restApiId := restApiId this;
     resourceId := resourceId this;
     resourcePath := resourcePath this;
     this_defaultIntegration := this_defaultIntegration this;
     latestDeployment := latestDeployment this;
     deploymentStage := deploymentStage this;
     methods := methods this ++ [m] |}.

(** [(props.deployOptions && props.deployOptions.stageName) || 'prod']: an
    object is truthy, the empty string and [undefined] are not. *)
Definition deployStageName (props : RestApiProps) : string :=
  match deployOptions props with
  | Some options =>
      match stageName options with
      | Some EmptyString | None => "prod"
      | Some name => name
      end
  | None => "prod"
  end.

(** [props.deploy === undefined ? true : props.deploy] *)
Definition deployEnabled (props : RestApiProps) : bool :=
  match deploy props with
  | None => true
  | Some b => b
  end.

(** [configureDeployment(props)] *)
Definition configureDeployment (props : RestApiProps) (this : RestApi)
  : result RestApi :=
  let deploy := deployEnabled props in
  if deploy then
    let deployment :=
      {| deployment_id := "Deployment";
         deployment_description := "Automatically created by the RestApi construct";
         deployment_api := restApiId this;
         deployment_retainDeployments := retainDeployments props |} in
    let this := addChild "Deployment" (ChildDeployment deployment) this in
    let this := set_latestDeployment (Some deployment) this in
    let stageName := deployStageName props in
    let stage :=
      {| stage_id := "DeploymentStage." +:+ stageName;
         stage_deployment := deployment;
         stage_options := deployOptions props |} in
    let this := addChild (stage_id stage) (ChildStage stage) this in
    let this := set_deploymentStage (Some stage) this in
    value <-! urlForPath this None ;;
    Ok (addChild "Endpoint" (ChildOutput value) this)
  else
    match deployOptions props with
    | Some _ => Throw ConfigurationConflict
    | None => Ok this
    end.

(** [configureCloudWatchRole(apiResource)]; [apiResource] is the child
    named 'Resource'. *)
Definition configureCloudWatchRole (apiResource : string) (this : RestApi)
  : RestApi :=
  let role :=
    {| assumedBy := "apigateway.amazonaws.com";
       managedPolicyArns :=
         [Arn_fromComponents
            {| service := "iam";
               region := Some EmptyString;
               account := Some "aws";
               resource := Lit "policy";
               sep := Some "/";
               resourceName :=
                 Some "service-role/AmazonAPIGatewayPushToCloudWatchLogs" |}] |} in
  let this := addChild "CloudWatchRole" (ChildRole role) this in
  let resource :=
    {| cloudWatchRoleArn := roleArn (path this ++ ["CloudWatchRole"]);
       dependencies := [apiResource] |} in
  addChild "Account" (ChildAccount resource) this.

(** [props.restApiName || id]: the empty string is falsy. *)
Definition restApiNameOrId (props : RestApiProps) (id : string) : string :=
  match restApiName props with
  | Some EmptyString | None => id
  | Some name => name
  end.

(** [new RestApi(parent, id, props)].  Of [parent] only its path is kept:
    what [super(parent, id)] does to the parent belongs to the construct
    tree, not to this file. *)
Definition RestApi_constructor (parent : list string) (id : string)
    (props : option RestApiProps) : result RestApi :=
  let props := default noProps props in
  let resource :=
    {| cfn_restApiName := restApiNameOrId props id;
       cfn_description := description props;
       cfn_policy := policy props;
       cfn_failOnWarnings := failOnWarnings props;
       cfn_minimumCompressionSize := minimumCompressionSize props;
       cfn_binaryMediaTypes := binaryMediaTypes props;
       cfn_endpointConfiguration := endpointTypes props;
       cfn_apiKeySourceType := apiKeySourceType props;
       cfn_cloneFrom := cloneFrom props;
       cfn_parameters := parameters props |} in
  let this :=
    {| path := parent ++ [id];
       children := [("Resource", ChildResource resource)];
       this_defaultIntegration := defaultIntegration props;
       restApiId := Tok (Ref (parent ++ [id; "Resource"]));
       resourceId := Tok (GetAtt (parent ++ [id; "Resource"]) "RootResourceId");
       resourcePath := "/";
       latestDeployment := None;
       deploymentStage := None;
       methods := [] |} in
  this <-! configureDeployment props this ;;
  let cloudWatchRole := match cloudWatchRole props with Some b => b | None => true end in
  if cloudWatchRole then Ok (configureCloudWatchRole "Resource" this) else Ok this.

(** *** Clients *)

(** What client code does to a [RestApi] once it is built: it assigns the
    public fields that are not readonly, and [Method] calls
    [_attachMethod]. *)
Inductive Action : Type :=
  | Call_attachMethod (m : Method)
  | Assign_defaultIntegration (i : option Integration)
  | Assign_latestDeployment (d : option Deployment)
  | Assign_deploymentStage (s : option Stage).

Definition perform (this : RestApi) (a : Action) : RestApi :=
  match a with
  | Call_attachMethod m => _attachMethod m this
  | Assign_defaultIntegration i => set_defaultIntegration i this
  | Assign_latestDeployment d => set_latestDeployment d this
  | Assign_deploymentStage s => set_deploymentStage s this
  end.

Definition performAll (actions : list Action) (this : RestApi) : RestApi :=
  fold_left perform actions this.

(** How many of the actions register a method. *)
Fixpoint registrations (actions : list Action) : nat :=
  match actions with
  | [] => 0
  | Call_attachMethod _ :: rest => S (registrations rest)
  | _ :: rest => registrations rest
  end.

(** The child of [this] created under [name], if any. *)
Definition findChild (name : string) (this : RestApi) : option Child :=
  snd <$> List.find (fun c => String.eqb (fst c) name) (children this).

(** The properties of the underlying [RestApiResource]. *)
Definition resourceProps (this : RestApi) : option RestApiResourceProps :=
  match findChild "Resource" this with
  | Some (ChildResource p) => Some p
  | _ => None
  end.

(** The configuration [props] with another [minimumCompressionSize]. *)
Definition with_minimumCompressionSize (size : option Z) (props : RestApiProps)
  : RestApiProps :=
  {| deploy := deploy props; deployOptions := deployOptions props;
     retainDeployments := retainDeployments props;
     restApiName := restApiName props; parameters := parameters props;
     policy := policy props; description := description props;
     apiKeySourceType := apiKeySourceType props;
     binaryMediaTypes := binaryMediaTypes props;
     endpointTypes := endpointTypes props;
     failOnWarnings := failOnWarnings props;
     minimumCompressionSize := size;
     cloneFrom := cloneFrom props;
     cloudWatchRole := cloudWatchRole props;
     defaultIntegration := defaultIntegration props |}.

(** The configuration [props] with another [deploy]. *)
Definition with_deploy (enabled : option bool) (props : RestApiProps)
  : RestApiProps :=
  {| deploy := enabled; deployOptions := deployOptions props;
     retainDeployments := retainDeployments props;
     restApiName := restApiName props; parameters := parameters props;
     policy := policy props; description := description props;
     apiKeySourceType := apiKeySourceType props;
     binaryMediaTypes := binaryMediaTypes props;
     endpointTypes := endpointTypes props;
     failOnWarnings := failOnWarnings props;
     minimumCompressionSize := minimumCompressionSize props;
     cloneFrom := cloneFrom props;
     cloudWatchRole := cloudWatchRole props;
     defaultIntegration := defaultIntegration props |}.

(** The configuration [props] with [deployOptions.stageName] set to [name]
    and everything else as it is. *)
Definition with_stageName (name : option string) (settings : StageSettings)
    (props : RestApiProps) : RestApiProps :=
  {| deploy := deploy props;
     deployOptions := Some {| stageName := name; stageSettings := settings |};
     retainDeployments := retainDeployments props;
     restApiName := restApiName props; parameters := parameters props;
     policy := policy props; description := description props;
     apiKeySourceType := apiKeySourceType props;
     binaryMediaTypes := binaryMediaTypes props;
     endpointTypes := endpointTypes props;
     failOnWarnings := failOnWarnings props;
     minimumCompressionSize := minimumCompressionSize props;
     cloneFrom := cloneFrom props;
     cloudWatchRole := cloudWatchRole props;
     defaultIntegration := defaultIntegration props |}.

(** The stage that [configureDeployment] creates for the api [id] under
    [parent]. *)
Definition deployedStage (parent : list string) (id : string)
    (props : RestApiProps) : Stage :=
  {| stage_id := "DeploymentStage." +:+ deployStageName props;
     stage_deployment :=
       {| deployment_id := "Deployment";
          deployment_description := "Automatically created by the RestApi construct";
          deployment_api := Tok (Ref (parent ++ [id; "Resource"]));
          deployment_retainDeployments := retainDeployments props |};
     stage_options := deployOptions props |}.

(** The outcome of the constructor, seen without the object it builds. *)
Definition outcome (r : result RestApi) : option (Error ForeignError) :=
  match r with
  | Ok _ => None
  | Throw e => Some e
  end.

(** The construct id of the stage that [deploy] created. *)
Definition stageConstructId (this : RestApi) : option string :=
  stage_id <$> deploymentStage this.

(** *** What the constructor builds *)

(** [props.cloudWatchRole !== undefined ? props.cloudWatchRole : true] *)
Definition cloudWatchRoleEnabled (props : RestApiProps) : bool :=
  match cloudWatchRole props with
  | Some b => b
  | None => true
  end.

(** The ids of the children of [this], in creation order. *)
Definition childIds (this : RestApi) : list string := (children this).*1.

(** The object as the constructor has it when it calls
    [configureDeployment]. *)
Definition initialApi (parent : list string) (id : string)
    (props : RestApiProps) : RestApi :=
  {| path := parent ++ [id];
     children :=
       [("Resource",
         ChildResource
           {| cfn_restApiName := restApiNameOrId props id;
              cfn_description := description props;
              cfn_policy := policy props;
              cfn_failOnWarnings := failOnWarnings props;
              cfn_minimumCompressionSize := minimumCompressionSize props;
              cfn_binaryMediaTypes := binaryMediaTypes props;
              cfn_endpointConfiguration := endpointTypes props;
              cfn_apiKeySourceType := apiKeySourceType props;
              cfn_cloneFrom := cloneFrom props;
              cfn_parameters := parameters props |})];
     this_defaultIntegration := defaultIntegration props;
     restApiId := Tok (Ref (parent ++ [id; "Resource"]));
     resourceId := Tok (GetAtt (parent ++ [id; "Resource"]) "RootResourceId");
     resourcePath := "/";
     latestDeployment := None;
     deploymentStage := None;
     methods := [] |}.

(** The object after a [configureDeployment] that deployed, [value] being
    the url of the stage. *)
Definition deployedApi (parent : list string) (id : string)
    (props : RestApiProps) (value : Url) : RestApi :=
  let stage := deployedStage parent id props in
  let deployment := stage_deployment stage in
  addChild "Endpoint" (ChildOutput value)
    (set_deploymentStage (Some stage)
       (addChild (stage_id stage) (ChildStage stage)
          (set_latestDeployment (Some deployment)
             (addChild "Deployment" (ChildDeployment deployment)
                (initialApi parent id props))))).

(** The last step of the constructor. *)
Definition withCloudWatchRole (props : RestApiProps) (this : RestApi) : RestApi :=
  if cloudWatchRoleEnabled props
  then configureCloudWatchRole "Resource" this
  else this.

End RestApi.
End ApiGateway.

(** ** packages/@aws-cdk/aws-iam/lib/group.ts *)
Module Iam.

(** Objects that are shared by reference live in a heap and are named by
    their address. *)
Definition loc := positive.

Section Group.

Context {PolicyStatement : Type}.

(** Modelled from the spec: the [Policy] class of ./policy is not part of
    this file.  A policy is an inline permission document with the
    statements added to it and the groups it was told it is attached to
    ("informs the policy object that this group is now one of its attachment
    targets"). *)
Record Policy : Type := {
  policy_parent : list string;
  policy_id : string;
  statements : list PolicyStatement;
  policy_groups : list (list string)
}.

(** Modelled from the spec: the [User] class of ./user is not part of this
    file.  The user keeps the membership list ("User is authoritative"). *)
Record User : Type := {
  user_groups : list (list string)
}.

(** The calls group.ts makes into ./policy, ./user and ./util, in order. *)
Inductive Call : Type :=
  | Call_newPolicy (p : loc) (parent : list string) (id : string)
  | Call_attachToGroup (p : loc) (group : list string)
  | Call_addStatement (p : loc) (s : PolicyStatement)
  | Call_attach (group : list string) (p : loc)
  | Call_addToGroup (u : loc) (group : list string).

Record Heap : Type := {
  arrays : gmap loc (list string);    (* the arrays of managed policy ARNs *)
  policies : gmap loc Policy;
  users : gmap loc User;
  calls : list Call
}.

(** A value computed when the template is synthesized, from the arrays as
    they are then ([cdk.Token] around a closure). *)
Definition Lazy (A : Type) : Type := gmap loc (list string) -> A.

Definition resolve {A} (t : Lazy A) (h : Heap) : A := t (arrays h).

Record GroupProps : Type := {
  props_groupName : option string;
  props_managedPolicyArns : option loc;   (* a reference to the caller's array *)
  props_path : option string
}.

(** [props: GroupProps = {}] *)
Definition noGroupProps : GroupProps :=
  {| props_groupName := None; props_managedPolicyArns := None; props_path := None |}.

(** The properties handed to [cloudformation.GroupResource]. *)
Record GroupResourceProps : Type := {
  cfn_groupName : option string;
  cfn_managedPolicyArns : Lazy (option (list string));
  cfn_path : option string
}.

Inductive GroupChild : Type :=
  | GroupResource (p : GroupResourceProps)
  | GroupPolicy (p : loc).

(** The fields of a [Group] object, and its children in creation order. *)
Record Group : Type := {
  groupPath : list string;
  groupChildren : list (string * GroupChild);
  groupName : Text;
  groupArn : Text;
  principal : Text;                   (* the arn of the ArnPrincipal *)
  managedPolicies : loc;
  attachedPolicies : list loc;
  defaultPolicy : option loc
}.

(** *** Arrays *)

(** The content of the array at [l]. *)
Definition read (l : loc) (a : gmap loc (list string)) : list string := a !!! l.

(** [array.push(x)] *)
Definition push (l : loc) (x : string) (h : Heap) : Heap :=
  {| arrays := <[l := read l (arrays h) ++ [x]]> (arrays h);
     policies := policies h;
     users := users h;
     calls := calls h |}.

(** The array literal [[]]: a new, empty array. *)
Definition newArray (h : Heap) : loc * Heap :=
  let l := fresh (dom (arrays h)) in
  (l, {| arrays := <[l := []]> (arrays h);
         policies := policies h;
         users := users h;
         calls := calls h |}).

Definition record (c : Call) (h : Heap) : Heap :=
  {| arrays := arrays h;
     policies := policies h;
     users := users h;
     calls := calls h ++ [c] |}.

(** *** Collaborators *)

(** Modelled from the spec: [undefinedIfEmpty] of ./util is not part of this
    file.  "empty list collapses to unset rather than an empty array": the
    closure is called at synthesis time and an empty result becomes
    [undefined]. *)
Definition undefinedIfEmpty (f : Lazy (list string)) : Lazy (option (list string)) :=
  fun a =>
    let array := f a in
    if Nat.ltb 0 (length array) then Some array else None.

(** Modelled from the spec: [new Policy(parent, id)], a policy without
    statements that is attached to nothing. *)
Definition newPolicy (parent : list string) (id : string) (h : Heap) : loc * Heap :=
  let p := fresh (dom (policies h)) in
  (p, record (Call_newPolicy p parent id)
        {| arrays := arrays h;
           policies :=
             <[p := {| policy_parent := parent; policy_id := id;
                       statements := []; policy_groups := [] |}]> (policies h);
           users := users h;
           calls := calls h |}).

(** Modelled from the spec: [policy.attachToGroup(group)]; the policy notes
    the group as one of its attachment targets. *)
Definition Policy_attachToGroup (p : loc) (group : list string) (h : Heap) : Heap :=
  record (Call_attachToGroup p group)
    {| arrays := arrays h;
       policies :=
         alter (fun o => {| policy_parent := policy_parent o;
                            policy_id := policy_id o;
                            statements := statements o;
                            policy_groups := policy_groups o ++ [group] |})
               p (policies h);
       users := users h;
       calls := calls h |}.

(** Modelled from the spec: [policy.addStatement(statement)]; the statement
    becomes the last one of the policy. *)
Definition Policy_addStatement (p : loc) (s : PolicyStatement) (h : Heap) : Heap :=
  record (Call_addStatement p s)
    {| arrays := arrays h;
       policies :=
         alter (fun o => {| policy_parent := policy_parent o;
                            policy_id := policy_id o;
                            statements := statements o ++ [s];
                            policy_groups := policy_groups o |})
               p (policies h);
       users := users h;
       calls := calls h |}.

(** Modelled from the spec: [user.addToGroup(group)], the user's own "join
    group" operation. *)
Definition User_addToGroup (u : loc) (group : list string) (h : Heap) : Heap :=
  record (Call_addToGroup u group)
    {| arrays := arrays h;
       policies := policies h;
       users := alter (fun o => {| user_groups := user_groups o ++ [group] |})
                      u (users h);
       calls := calls h |}.

(** *** The class *)

(** [new Group(parent, name, props)].  Of [parent] only its path is kept. *)
Definition Group_constructor (parent : list string) (name : string)
    (props : option GroupProps) (h : Heap) : Group * Heap :=
  let props := default noGroupProps props in
  (* this.managedPolicies = props.managedPolicyArns || [] : an array is truthy *)
  let '(l, h) :=
    match props_managedPolicyArns props with
    | Some l => (l, h)
    | None => newArray h
    end in
  let group :=
    {| cfn_groupName := props_groupName props;
       cfn_managedPolicyArns := undefinedIfEmpty (read l);
       cfn_path := props_path props |} in
  let resource := parent ++ [name; "Resource"] in
  ({| groupPath := parent ++ [name];
      groupChildren := [("Resource", GroupResource group)];
      groupName := Tok (Ref resource);
      groupArn := Tok (GetAtt resource "Arn");
      principal := Tok (GetAtt resource "Arn");
      managedPolicies := l;
      attachedPolicies := [];
      defaultPolicy := None |}, h).

(** [attachManagedPolicy(arn)] *)
Definition attachManagedPolicy (arn : string) (this : Group) (h : Heap)
  : Group * Heap :=
  (this, push (managedPolicies this) arn h).

(** Modelled from the spec: [AttachedPolicies.attach] of ./util is not part
    of this file.  "records the attachment". *)
Definition AttachedPolicies_attach (policy : loc) (this : Group) (h : Heap)
  : Group * Heap :=
  ({| groupPath := groupPath this;
      groupChildren := groupChildren this;
      groupName := groupName this;
      groupArn := groupArn this;
      principal := principal this;
      managedPolicies := managedPolicies this;
      attachedPolicies := attachedPolicies this ++ [policy];
      defaultPolicy := defaultPolicy this |},
   record (Call_attach (groupPath this) policy) h).

(** [attachInlinePolicy(policy)] *)
Definition attachInlinePolicy (policy : loc) (this : Group) (h : Heap)
  : Group * Heap :=
  let '(this, h) := AttachedPolicies_attach policy this h in
  (this, Policy_attachToGroup policy (groupPath this) h).

(** [addUser(user)] *)
Definition addUser (user : loc) (this : Group) (h : Heap) : Group * Heap :=
  (this, User_addToGroup user (groupPath this) h).

Definition addGroupChild (name : string) (c : GroupChild) (this : Group) : Group :=
  {| groupPath := groupPath this;
     groupChildren := groupChildren this ++ [(name, c)];
     groupName := groupName this;
     groupArn := groupArn this;
     principal := principal this;
     managedPolicies := managedPolicies this;
     attachedPolicies := attachedPolicies this;
     defaultPolicy := defaultPolicy this |}.

Definition set_defaultPolicy (p : option loc) (this : Group) : Group :=
  {| groupPath := groupPath this;
     groupChildren := groupChildren this;
     groupName := groupName this;
     groupArn := groupArn this;
     principal := principal this;
     managedPolicies := managedPolicies this;
     attachedPolicies := attachedPolicies this;
     defaultPolicy := p |}.

(** [addToPolicy(statement)] *)
Definition addToPolicy (statement : PolicyStatement) (this : Group) (h : Heap)
  : Group * Heap :=
  let '(this, h) :=
    match defaultPolicy this with
    | Some _ => (this, h)
    | None =>
        let '(p, h) := newPolicy (groupPath this) "DefaultPolicy" h in
        let this :=
          set_defaultPolicy (Some p)
            (addGroupChild "DefaultPolicy" (GroupPolicy p) this) in
        (this, Policy_attachToGroup p (groupPath this) h)
    end in
  match defaultPolicy this with
  | Some p => (this, Policy_addStatement p statement h)
  | None => (this, h)                 (* not reached: it was set just above *)
  end.

(** *** Clients *)

(** [attachManagedPolicy] called once for each of [arns], in order. *)
Definition attachAll (arns : list string) (this : Group) (h : Heap) : Group * Heap :=
  fold_left (fun s arn => attachManagedPolicy arn (fst s) (snd s)) arns (this, h).

(** [addToPolicy] called once for each of [sts], in order. *)
Definition addAllToPolicy (sts : list PolicyStatement) (this : Group) (h : Heap)
  : Group * Heap :=
  fold_left (fun s st => addToPolicy st (fst s) (snd s)) sts (this, h).

(** The policies created by the calls of a trace. *)
Definition created (cs : list Call) : list loc :=
  omap (fun c => match c with Call_newPolicy p _ _ => Some p | _ => None end) cs.

(** What the group resource shows for [managedPolicyArns] when it is read
    against the heap [h]. *)
Definition managedPolicyArnsOf (this : Group) (h : Heap) : option (list string) :=
  match groupChildren this with
  | (_, GroupResource p) :: _ => resolve (cfn_managedPolicyArns p) h
  | _ => None
  end.

(** *** Any sequence of calls *)

(** The public methods of [Group], as a client calls them. *)
Inductive Operation : Type :=
  | Op_attachManagedPolicy (arn : string)
  | Op_attachInlinePolicy (policy : loc)
  | Op_addUser (user : loc)
  | Op_addToPolicy (statement : PolicyStatement).

Definition operate (s : Group * Heap) (o : Operation) : Group * Heap :=
  match o with
  | Op_attachManagedPolicy arn => attachManagedPolicy arn (fst s) (snd s)
  | Op_attachInlinePolicy policy => attachInlinePolicy policy (fst s) (snd s)
  | Op_addUser user => addUser user (fst s) (snd s)
  | Op_addToPolicy statement => addToPolicy statement (fst s) (snd s)
  end.

Definition operateAll (os : list Operation) (this : Group) (h : Heap)
  : Group * Heap :=
  fold_left operate os (this, h).

End Group.
End Iam.

(** ** Fixtures: concrete collaborators to run the definitions on *)
Module Fixtures.

(** An ARN is shown as the components it was made from. *)
Definition arnOf (c : ArnComponents) : ArnComponents := c.

(** A stage that serves the paths with a leading slash. *)
Definition stageUrl (stage : @ApiGateway.Stage unit) (path : string)
  : string + string :=
  if startsWith "/" path
  then inr ("https://api.example/" +:+ ApiGateway.stage_id stage +:+ path)
  else inl "Path must begin with /".

Definition Api : Type :=
  @ApiGateway.RestApi unit string unit unit ArnComponents string.

Definition newRestApi (id : string) (props : option (@ApiGateway.RestApiProps unit unit unit))
    : Result string Api :=
  ApiGateway.RestApi_constructor arnOf stageUrl [] id props.

Definition defaults : @ApiGateway.RestApiProps unit unit unit := ApiGateway.noProps.

Definition options (name : option string) : @ApiGateway.StageOptions unit :=
  {| ApiGateway.stageName := name; ApiGateway.stageSettings := tt |}.

(** [{ deployOptions: { stageName } }] *)
Definition named (name : option string) : @ApiGateway.RestApiProps unit unit unit :=
  ApiGateway.with_stageName name tt defaults.

(** [{ deploy: false, minimumCompressionSize }] *)
Definition undeployed (size : Z) : @ApiGateway.RestApiProps unit unit unit :=
  ApiGateway.with_deploy (Some false)
    (ApiGateway.with_minimumCompressionSize (Some size) defaults).

Definition emptyHeap : @Iam.Heap string :=
  {| Iam.arrays := ∅; Iam.policies := ∅; Iam.users := ∅; Iam.calls := [] |}.

(** A heap with one user, who is in no group. *)
Definition oneUser : @Iam.Heap string :=
  {| Iam.arrays := ∅; Iam.policies := ∅;
     Iam.users := {[ 1%positive := {| Iam.user_groups := [] |} ]};
     Iam.calls := [] |}.

(** [new Group(root, 'admins')] in a heap. *)
Definition admins (h : @Iam.Heap string) : Iam.Group * @Iam.Heap string :=
  Iam.Group_constructor [] "admins" None h.


(** [{ restApiName: '', cloudWatchRole: false }] *)
Definition unnamed : @ApiGateway.RestApiProps unit unit unit :=
  {| ApiGateway.deploy := None; ApiGateway.deployOptions := None;
     ApiGateway.retainDeployments := None;
     ApiGateway.restApiName := Some EmptyString;
     ApiGateway.parameters := None; ApiGateway.policy := None;
     ApiGateway.description := Some "pets";
     ApiGateway.apiKeySourceType := None;
     ApiGateway.binaryMediaTypes := None; ApiGateway.endpointTypes := None;
     ApiGateway.failOnWarnings := None;
     ApiGateway.minimumCompressionSize := None;
     ApiGateway.cloneFrom := None;
     ApiGateway.cloudWatchRole := Some false;
     ApiGateway.defaultIntegration := None |}.

(** A heap in which the caller has an array with one ARN. *)
Definition callersArray : @Iam.Heap string :=
  {| Iam.arrays := {[ 7%positive := ["arn:aws:iam::aws:policy/ReadOnlyAccess"] ]};
     Iam.policies := ∅; Iam.users := ∅; Iam.calls := [] |}.

(** [{ managedPolicyArns: array }] for the array at 7. *)
Definition withArns : option Iam.GroupProps :=
  Some {| Iam.props_groupName := None;
          Iam.props_managedPolicyArns := Some 7%positive;
          Iam.props_path := None |}.

End Fixtures.

(** ** Properties of [RestApi] *)
Module ApiGatewayFacts.
Import ApiGateway.

Section Facts.

Context {Integration Method PolicyDocument StageSettings Arn Url ForeignError : Type}.
Variable Arn_fromComponents : ArnComponents -> Arn.
Variable Stage_urlForPath : @Stage StageSettings -> string -> ForeignError + Url.

#[local] Abbreviation Api :=
  (@RestApi Integration Method PolicyDocument StageSettings Arn Url).
#[local] Abbreviation Props :=
  (@RestApiProps Integration PolicyDocument StageSettings).
#[local] Abbreviation new :=
  (@RestApi_constructor Integration Method PolicyDocument StageSettings Arn Url
     ForeignError Arn_fromComponents Stage_urlForPath).
#[local] Abbreviation urlFor :=
  (@urlForPath Integration Method PolicyDocument StageSettings Arn Url
     ForeignError Stage_urlForPath).
#[local] Abbreviation urlOf :=
  (@url Integration Method PolicyDocument StageSettings Arn Url
     ForeignError Stage_urlForPath).
#[local] Abbreviation arnFor :=
  (@executeApiArn Integration Method PolicyDocument StageSettings Arn Url
     ForeignError Arn_fromComponents).

(** *** Frame lemmas: which fields each step touches *)

Lemma deploymentStage_addChild name c (this : Api) :
  deploymentStage (addChild name c this) = deploymentStage this.
Proof. reflexivity. Qed.

Lemma deploymentStage_cloudWatchRole r (this : Api) :
  deploymentStage (configureCloudWatchRole Arn_fromComponents r this)
  = deploymentStage this.
Proof. reflexivity. Qed.

Lemma latestDeployment_cloudWatchRole r (this : Api) :
  latestDeployment (configureCloudWatchRole Arn_fromComponents r this)
  = latestDeployment this.
Proof. reflexivity. Qed.

Lemma methods_cloudWatchRole r (this : Api) :
  methods (configureCloudWatchRole Arn_fromComponents r this) = methods this.
Proof. reflexivity. Qed.

Lemma children_cloudWatchRole r (this : Api) :
  exists more,
    children (configureCloudWatchRole Arn_fromComponents r this)
    = children this ++ more.
Proof. eexists. cbn. rewrite <- app_assoc. reflexivity. Qed.

(** The constructor is [configureDeployment] on the initial object, then
    possibly [configureCloudWatchRole]; the latter leaves the deployment
    fields, the methods and the earlier children alone. *)
Lemma construct_inv parent id (props : option Props) (this : Api) :
  new parent id props = Ok this ->
  exists this0 this1 : Api,
    children this0
    = [("Resource",
        ChildResource
          {| cfn_restApiName := restApiNameOrId (default noProps props) id;
             cfn_description := description (default noProps props);
             cfn_policy := policy (default noProps props);
             cfn_failOnWarnings := failOnWarnings (default noProps props);
             cfn_minimumCompressionSize :=
               minimumCompressionSize (default noProps props);
             cfn_binaryMediaTypes := binaryMediaTypes (default noProps props);
             cfn_endpointConfiguration := endpointTypes (default noProps props);
             cfn_apiKeySourceType := apiKeySourceType (default noProps props);
             cfn_cloneFrom := cloneFrom (default noProps props);
             cfn_parameters := parameters (default noProps props) |})]
    /\ latestDeployment this0 = None
    /\ deploymentStage this0 = None
    /\ methods this0 = []
    /\ configureDeployment Stage_urlForPath (default noProps props) this0 = Ok this1
    /\ latestDeployment this = latestDeployment this1
    /\ deploymentStage this = deploymentStage this1
    /\ methods this = methods this1
    /\ exists more, children this = children this1 ++ more.
Proof.
  unfold RestApi_constructor. cbv zeta.
  match goal with
  | |- bind (configureDeployment _ _ ?t) _ = _ -> _ => set (this0 := t)
  end.
  destruct (configureDeployment Stage_urlForPath (default noProps props) this0)
    as [this1|e] eqn:Hcd; cbn [bind]; [|discriminate].
  intros H. exists this0, this1.
  do 4 (split; [reflexivity|]). split; [exact Hcd|].
  destruct (cloudWatchRole (default noProps props)) as [[|]|];
    injection H as <-; do 3 (split; [reflexivity|]);
    try apply children_cloudWatchRole.
  exists []. now rewrite app_nil_r.
Qed.

(** With [deploy] enabled, [configureDeployment] creates the deployment and
    the stage, asks the stage for the url of '/', and succeeds exactly when
    the stage answers. *)
Lemma configureDeployment_enabled (props : Props) (this this' : Api) :
  deployEnabled props = true ->
  configureDeployment Stage_urlForPath props this = Ok this' ->
  exists d s value,
    latestDeployment this' = Some d
    /\ deploymentStage this' = Some s
    /\ stage_deployment s = d
    /\ stage_id s = "DeploymentStage." +:+ deployStageName props
    /\ stage_options s = deployOptions props
    /\ Stage_urlForPath s "/" = inr value
    /\ methods this' = methods this
    /\ children this'
       = children this
         ++ [("Deployment", ChildDeployment d); (stage_id s, ChildStage s);
             ("Endpoint", ChildOutput value)].
Proof.
  intros Hen. unfold configureDeployment. rewrite Hen. cbv zeta.
  unfold urlForPath. cbn [deploymentStage set_deploymentStage default].
  match goal with
  | |- context [Stage_urlForPath ?s "/"] =>
      destruct (Stage_urlForPath s "/") as [e|value] eqn:Hurl
  end; cbn [foreign bind]; [discriminate|].
  intros H. injection H as <-.
  do 3 eexists. repeat (split; [reflexivity|]).
  split; [exact Hurl|]. split; [reflexivity|].
  cbn. rewrite <- !app_assoc. reflexivity.
Qed.

Lemma configureDeployment_disabled (props : Props) (this : Api) :
  deployEnabled props = false ->
  configureDeployment Stage_urlForPath props this
  = match deployOptions props with
    | Some _ => Throw ConfigurationConflict
    | None => Ok this
    end.
Proof. intros Hdis. unfold configureDeployment. now rewrite Hdis. Qed.

(** A stage that answers for '/' lets the constructor return. *)
Lemma construct_returns parent id (props : option Props) :
  deployEnabled (default noProps props) = true ->
  (forall s, exists value, Stage_urlForPath s "/" = inr value) ->
  returns (new parent id props).
Proof.
  intros Hen Hroot. unfold RestApi_constructor, configureDeployment. rewrite Hen.
  cbv zeta. unfold urlForPath. cbn [deploymentStage set_deploymentStage default].
  match goal with
  | |- context [Stage_urlForPath ?s "/"] => destruct (Hroot s) as [value ->]
  end.
  cbn [foreign bind].
  destruct (cloudWatchRole (default noProps props)) as [[|]|]; eexists; reflexivity.
Qed.

Lemma deployEnabled_iff (props : Props) :
  deployEnabled props = true <-> deploy props = None \/ deploy props = Some true.
Proof.
  unfold deployEnabled. destruct (deploy props) as [[|]|]; split; intros H;
    try reflexivity; try discriminate; auto.
  - destruct H; discriminate.
Qed.

(** C1.  When [deploy] is omitted or true and the constructor returns, the
    object has [latestDeployment] and [deploymentStage] set, and [url], which
    is [urlForPath] with its default path '/', returns a value. *)
Theorem deploy_sets_deployment_and_stage parent id (props : option Props) (this : Api) :
  deploy (default noProps props) = None \/ deploy (default noProps props) = Some true ->
  new parent id props = Ok this ->
  is_Some (latestDeployment this)
  /\ is_Some (deploymentStage this)
  /\ returns (urlOf this)
  /\ urlOf this = urlFor this (Some "/").
Proof.
  intros Hdeploy%deployEnabled_iff Hnew.
  destruct (construct_inv _ _ _ _ Hnew)
    as (this0 & this1 & _ & _ & _ & _ & Hcd & Hd & Hs & _).
  destruct (configureDeployment_enabled _ _ _ Hdeploy Hcd)
    as (d & s & value & Hd1 & Hs1 & _ & _ & _ & Hurl & _).
  rewrite Hd, Hs, Hd1, Hs1.
  split; [eauto|]. split; [eauto|]. split; [|reflexivity].
  exists value. unfold url, urlForPath. rewrite Hs, Hs1. cbn [default from_option Datatypes.id].
  now rewrite Hurl.
Qed.

(** C2, as the code has it.  A configuration with [deploy] false and
    [deployOptions] supplied makes the constructor fail with the
    configuration conflict.  [urlForPath] (and [url]) throws the state error
    exactly when [deploymentStage] is not set; when it is set, the call is
    the stage's own [urlForPath]: it returns what the stage returns, and when
    the stage throws, it throws the error of the stage. *)
Theorem conflict_and_missing_stage :
  (forall parent id (props : Props) options,
      deploy props = Some false ->
      deployOptions props = Some options ->
      new parent id (Some props) = Throw ConfigurationConflict)
  /\ (forall (this : Api) path,
        urlFor this path = Throw StateError <-> deploymentStage this = None)
  /\ (forall this : Api,
        urlOf this = Throw StateError <-> deploymentStage this = None)
  /\ (forall (this : Api) path stage,
        deploymentStage this = Some stage ->
        urlFor this path = foreign (Stage_urlForPath stage (default "/" path)))
  /\ (forall (this : Api) path stage value,
        deploymentStage this = Some stage ->
        (urlFor this path = Ok value
         <-> Stage_urlForPath stage (default "/" path) = inr value))
  /\ (forall (this : Api) path stage e,
        deploymentStage this = Some stage ->
        (urlFor this path = Throw (Foreign e)
         <-> Stage_urlForPath stage (default "/" path) = inl e)).
Proof.
  assert (Hiff : forall (this : Api) path,
             urlFor this path = Throw StateError <-> deploymentStage this = None).
  { intros this path. unfold urlForPath.
    destruct (deploymentStage this) as [stage|]; [|tauto].
    destruct (Stage_urlForPath stage (default "/" path)); cbn [foreign];
      split; discriminate. }
  assert (Hstage : forall (this : Api) path stage,
             deploymentStage this = Some stage ->
             urlFor this path
             = foreign (Stage_urlForPath stage (default "/" path))).
  { intros this path stage Hstage. unfold urlForPath. now rewrite Hstage. }
  split; [|split; [exact Hiff|split; [|split; [exact Hstage|split]]]].
  - intros parent id props options Hdeploy Hoptions.
    assert (Hdis : deployEnabled props = false)
      by (unfold deployEnabled; now rewrite Hdeploy).
    unfold RestApi_constructor. cbv zeta. cbn [default from_option Datatypes.id].
    rewrite (configureDeployment_disabled _ _ Hdis), Hoptions.
    reflexivity.
  - intros this. apply Hiff.
  - intros this path stage value Hs. rewrite (Hstage _ _ _ Hs).
    destruct (Stage_urlForPath stage (default "/" path)); cbn [foreign];
      split; intros [= ->]; reflexivity.
  - intros this path stage e Hs. rewrite (Hstage _ _ _ Hs).
    destruct (Stage_urlForPath stage (default "/" path)); cbn [foreign];
      split; intros [= ->]; reflexivity.
Qed.

(** [startsWith "/"] says that the first character is a slash. *)
Lemma startsWith_slash path :
  startsWith "/" path = true <-> exists rest, path = "/" +:+ rest.
Proof.
  unfold startsWith. destruct path as [|c rest].
  - split; [discriminate|]. intros [rest' H]. discriminate H.
  - change (String.prefix "/" (String c rest))
      with (if Ascii.ascii_dec "/"%char c
            then String.prefix EmptyString rest else false).
    destruct (Ascii.ascii_dec "/"%char c) as [<-|Hne].
    + split; [intros _; now exists rest|]. intros _. now destruct rest.
    + split; [discriminate|]. intros [rest' H]. cbn in H.
      injection H as -> _. now destruct Hne.
Qed.

Lemma executeApiArn_bad_path (this : Api) method path stage :
  startsWith "/" path = false ->
  arnFor this method (Some path) stage = Throw (ValidationError path).
Proof. intros H. unfold executeApiArn. cbn [default from_option Datatypes.id]. now rewrite H. Qed.

(** C3.  [executeApiArn()] is [executeApiArn('*', '/*', '*')], the ARN whose
    resource name is '*/*/*'; and a non-empty path without a leading slash is
    rejected with the validation error, whatever the method and the stage. *)
Theorem executeApiArn_defaults_and_validation (this : Api) :
  arnFor this None None None = arnFor this (Some "*") (Some "/*") (Some "*")
  /\ arnFor this None None None
     = Ok (Arn_fromComponents
             {| service := "execute-api"; resource := restApiId this;
                sep := Some "/"; resourceName := Some "*/*/*";
                region := None; account := None |})
  /\ (forall method path stage,
        path <> EmptyString ->
        (forall rest, path <> "/" +:+ rest) ->
        arnFor this method (Some path) stage = Throw (ValidationError path)).
Proof.
  split; [reflexivity|]. split; [reflexivity|].
  intros method path stage _ Hslash. apply executeApiArn_bad_path.
  destruct (startsWith "/" path) eqn:H; [|reflexivity].
  apply startsWith_slash in H as [rest ->]. now destruct (Hslash rest).
Qed.

(** *** The inventory of methods *)

Lemma methods_perform (this : Api) a :
  length (methods (perform this a))
  = length (methods this) + registrations [a].
Proof.
  destruct a; cbn [perform registrations methods _attachMethod
                   set_defaultIntegration set_latestDeployment
                   set_deploymentStage]; [|lia..].
  rewrite length_app. cbn. lia.
Qed.

Lemma registrations_cons a (actions : list (@Action Integration Method StageSettings)) :
  registrations (a :: actions) = registrations [a] + registrations actions.
Proof. destruct a; cbn; lia. Qed.

(** Only [_attachMethod] changes the inventory, by one entry each time. *)
Lemma methods_performAll actions (this : Api) :
  length (methods (performAll actions this))
  = length (methods this) + registrations actions.
Proof.
  unfold performAll. revert this.
  induction actions as [|a actions IH]; intros this.
  - cbn. lia.
  - cbn [fold_left]. rewrite IH, methods_perform, (registrations_cons a actions). lia.
Qed.

Lemma methods_configureDeployment (props : Props) (this this' : Api) :
  configureDeployment Stage_urlForPath props this = Ok this' ->
  methods this' = methods this.
Proof.
  destruct (deployEnabled props) eqn:Hen; intros H.
  - destruct (configureDeployment_enabled _ _ _ Hen H)
      as (d & s & value & _ & _ & _ & _ & _ & _ & Hm & _). exact Hm.
  - rewrite (configureDeployment_disabled _ _ Hen) in H.
    destruct (deployOptions props); [discriminate|]. now injection H as <-.
Qed.

Lemma children_configureDeployment (props : Props) (this this' : Api) :
  configureDeployment Stage_urlForPath props this = Ok this' ->
  exists more, children this' = children this ++ more.
Proof.
  destruct (deployEnabled props) eqn:Hen; intros H.
  - destruct (configureDeployment_enabled _ _ _ Hen H)
      as (d & s & value & _ & _ & _ & _ & _ & _ & _ & Hc). eauto.
  - rewrite (configureDeployment_disabled _ _ Hen) in H.
    destruct (deployOptions props); [discriminate|]. injection H as <-.
    exists []. now rewrite app_nil_r.
Qed.

(** A new [RestApi] has no method. *)
Lemma construct_no_methods parent id (props : option Props) (this : Api) :
  new parent id props = Ok this -> methods this = [].
Proof.
  intros Hnew.
  destruct (construct_inv _ _ _ _ Hnew)
    as (this0 & this1 & _ & _ & _ & Hm0 & Hcd & _ & _ & Hm & _).
  now rewrite Hm, (methods_configureDeployment _ _ _ Hcd).
Qed.

(** C4.  On a [RestApi] as built by the constructor and then used by its
    clients, [validate] (a total function) returns exactly one diagnostic
    when [_attachMethod] was never called, and the empty list once it was
    called at least once. *)
Theorem validate_counts_registrations parent id (props : option Props)
    (this : Api) actions :
  new parent id props = Ok this ->
  (registrations actions = 0 ->
     validate (performAll actions this)
     = ["The REST API doesn't contain any methods"]
     /\ length (validate (performAll actions this)) = 1)
  /\ (0 < registrations actions -> validate (performAll actions this) = []).
Proof.
  intros Hnew%construct_no_methods.
  pose proof (methods_performAll actions this) as Hlen.
  rewrite Hnew in Hlen. cbn [length] in Hlen. unfold validate.
  split; intros Hreg.
  - assert (Hz : length (methods (performAll actions this)) = 0) by lia.
    rewrite Hz. now cbn.
  - destruct (length (methods (performAll actions this))) eqn:Hz; [lia|].
    reflexivity.
Qed.

(** *** The properties of the underlying resource *)

Lemma construct_resourceProps parent id (props : option Props) (this : Api) :
  new parent id props = Ok this ->
  cfn_minimumCompressionSize <$> resourceProps this
  = Some (minimumCompressionSize (default noProps props)).
Proof.
  intros Hnew.
  destruct (construct_inv _ _ _ _ Hnew)
    as (this0 & this1 & Hc0 & _ & _ & _ & Hcd & _ & _ & _ & more & Hc).
  destruct (children_configureDeployment _ _ _ Hcd) as [more1 Hc1].
  unfold resourceProps, findChild.
  rewrite Hc, Hc1, Hc0. reflexivity.
Qed.

(** Whether the constructor returns, and what it throws when it does not. *)
Lemma construct_outcome parent id (props : Props) :
  outcome (new parent id (Some props))
  = if deployEnabled props
    then match Stage_urlForPath (deployedStage parent id props) "/" with
         | inl e => Some (Foreign e)
         | inr _ => None
         end
    else match deployOptions props with
         | Some _ => Some ConfigurationConflict
         | None => None
         end.
Proof.
  unfold RestApi_constructor, configureDeployment. cbv zeta.
  cbn [default from_option Datatypes.id].
  destruct (deployEnabled props).
  - unfold urlForPath, deployedStage.
    cbn [default from_option Datatypes.id deploymentStage set_deploymentStage
         restApiId addChild set_latestDeployment].
    match goal with
    | |- context [Stage_urlForPath ?s "/"] =>
        destruct (Stage_urlForPath s "/")
    end; cbn [foreign bind outcome]; [reflexivity|].
    destruct (cloudWatchRole props) as [[|]|]; reflexivity.
  - cbn [default from_option Datatypes.id].
    destruct (deployOptions props); cbn [bind outcome]; [reflexivity|].
    destruct (cloudWatchRole props) as [[|]|]; reflexivity.
Qed.

Lemma construct_outcome_minimumCompressionSize parent id (props : Props) size :
  outcome (new parent id (Some (with_minimumCompressionSize size props)))
  = outcome (new parent id (Some props)).
Proof. now rewrite !construct_outcome. Qed.

(** C7, as the code has it.  The constructor does not look at
    [minimumCompressionSize]: whether it returns, and the error when it does
    not, are the same for every value of the option, inside the range
    0..10485760 or outside; and when it returns, the underlying resource has
    been given the value unchanged. *)
Theorem minimumCompressionSize_is_forwarded parent id (props : Props) size :
  (forall e,
      new parent id (Some (with_minimumCompressionSize size props)) = Throw e
      <-> new parent id (Some props) = Throw e)
  /\ (returns (new parent id (Some (with_minimumCompressionSize size props)))
      <-> returns (new parent id (Some props)))
  /\ (forall this,
        new parent id (Some (with_minimumCompressionSize size props)) = Ok this ->
        cfn_minimumCompressionSize <$> resourceProps this = Some size).
Proof.
  pose proof (construct_outcome_minimumCompressionSize parent id props size) as Hout.
  destruct (new parent id (Some (with_minimumCompressionSize size props)))
    as [a|e1] eqn:H1;
    destruct (new parent id (Some props)) as [b|e2] eqn:H2;
    cbn [outcome] in Hout; try discriminate.
  - split; [intros e; split; discriminate|].
    split; [split; intros _; eexists; reflexivity|].
    intros this [= <-]. now rewrite (construct_resourceProps _ _ _ _ H1).
  - injection Hout as <-.
    split; [intros e; split; intros [= <-]; reflexivity|].
    split; [split; intros [x Hx]; discriminate|].
    intros this Hx. discriminate.
Qed.

(** *** The stage *)

Lemma deployStageName_spec (props : Props) :
  (forall options name,
      deployOptions props = Some options ->
      stageName options = Some name ->
      name <> EmptyString ->
      deployStageName props = name)
  /\ (deployOptions props = None -> deployStageName props = "prod")
  /\ (forall options,
        deployOptions props = Some options ->
        stageName options = None \/ stageName options = Some EmptyString ->
        deployStageName props = "prod").
Proof.
  unfold deployStageName. split; [|split].
  - intros options name -> -> Hne. now destruct name.
  - now intros ->.
  - intros options -> [-> | ->]; reflexivity.
Qed.

Lemma construct_stage parent id (props : option Props) (this : Api) :
  deployEnabled (default noProps props) = true ->
  new parent id props = Ok this ->
  exists stage,
    deploymentStage this = Some stage
    /\ stage_id stage = "DeploymentStage." +:+ deployStageName (default noProps props)
    /\ stage_options stage = deployOptions (default noProps props)
    /\ In (stage_id stage, ChildStage stage) (children this).
Proof.
  intros Hen Hnew.
  destruct (construct_inv _ _ _ _ Hnew)
    as (this0 & this1 & _ & _ & _ & _ & Hcd & _ & Hs & _ & more & Hc).
  destruct (configureDeployment_enabled _ _ _ Hen Hcd)
    as (d & s & value & _ & Hs1 & _ & Hid & Hopt & _ & _ & Hc1).
  exists s. rewrite Hs. repeat (split; [assumption|]).
  rewrite Hc, Hc1, !in_app_iff. left. right. cbn. auto.
Qed.

(** C8, as the code has it.  With [deploy] enabled the identifier of the
    stage is 'DeploymentStage.' followed by the effective stage name, which
    is [deployOptions.stageName] when that is supplied and not empty, and
    'prod' otherwise; two configurations give the same identifier exactly
    when their effective stage names are the same. *)
Theorem stage_identifier_embeds_effective_name parent id
    (props1 props2 : Props) (this1 this2 : Api) :
  deployEnabled props1 = true ->
  deployEnabled props2 = true ->
  new parent id (Some props1) = Ok this1 ->
  new parent id (Some props2) = Ok this2 ->
  stageConstructId this1 = Some ("DeploymentStage." +:+ deployStageName props1)
  /\ stageConstructId this2 = Some ("DeploymentStage." +:+ deployStageName props2)
  /\ (forall options name,
        deployOptions props1 = Some options ->
        stageName options = Some name ->
        name <> EmptyString ->
        deployStageName props1 = name)
  /\ ((forall options,
          deployOptions props1 = Some options ->
          stageName options = None \/ stageName options = Some EmptyString) ->
      deployStageName props1 = "prod")
  /\ (deployStageName props1 <> deployStageName props2 ->
      stageConstructId this1 <> stageConstructId this2)
  /\ (deployStageName props1 = deployStageName props2 ->
      stageConstructId this1 = stageConstructId this2).
Proof.
  intros Hen1 Hen2 Hnew1 Hnew2.
  destruct (construct_stage _ _ (Some props1) _ Hen1 Hnew1)
    as (s1 & Hs1 & Hid1 & _).
  destruct (construct_stage _ _ (Some props2) _ Hen2 Hnew2)
    as (s2 & Hs2 & Hid2 & _).
  cbn [default from_option Datatypes.id] in Hid1, Hid2.
  unfold stageConstructId. rewrite Hs1, Hs2. cbn [fmap option_fmap option_map].
  rewrite Hid1, Hid2.
  destruct (deployStageName_spec props1) as (Hname & Hnone & Hempty).
  split; [reflexivity|]. split; [reflexivity|]. split; [exact Hname|].
  split; [|split].
  - intros H. destruct (deployOptions props1) as [options|] eqn:Ho.
    + apply (Hempty options eq_refl), H, eq_refl.
    + now apply Hnone.
  - intros Hne [= H]. now apply Hne.
  - now intros ->.
Qed.

(** *** The constructor, case by case *)

#[local] Abbreviation finish :=
  (@withCloudWatchRole Integration Method PolicyDocument StageSettings Arn Url
     Arn_fromComponents).

Lemma construct_enabled_eq parent id (props : Props) value :
  deployEnabled props = true ->
  Stage_urlForPath (deployedStage parent id props) "/" = inr value ->
  new parent id (Some props) = Ok (finish props (deployedApi parent id props value)).
Proof.
  intros Hen Hurl. unfold RestApi_constructor, configureDeployment. cbv zeta.
  cbn [default from_option Datatypes.id]. rewrite Hen.
  unfold urlForPath.
  cbn [default from_option Datatypes.id deploymentStage set_deploymentStage].
  change (Stage_urlForPath _ "/")
    with (Stage_urlForPath (deployedStage parent id props) "/").
  rewrite Hurl. cbn [foreign bind].
  unfold withCloudWatchRole, cloudWatchRoleEnabled.
  destruct (cloudWatchRole props) as [[|]|]; reflexivity.
Qed.

Lemma construct_disabled_eq parent id (props : Props) :
  deployEnabled props = false ->
  deployOptions props = None ->
  new parent id (Some props) = Ok (finish props (initialApi parent id props)).
Proof.
  intros Hdis Hnone. unfold RestApi_constructor. cbv zeta.
  cbn [default from_option Datatypes.id].
  rewrite (configureDeployment_disabled _ _ Hdis), Hnone. cbn [bind].
  unfold withCloudWatchRole, cloudWatchRoleEnabled.
  destruct (cloudWatchRole props) as [[|]|]; reflexivity.
Qed.

(** Every object the constructor returns is one of the two above. *)
Lemma construct_cases parent id (props : option Props) (this : Api) :
  new parent id props = Ok this ->
  (deployEnabled (default noProps props) = true
   /\ exists value,
       Stage_urlForPath (deployedStage parent id (default noProps props)) "/"
       = inr value
       /\ this = finish (default noProps props)
                   (deployedApi parent id (default noProps props) value))
  \/ (deployEnabled (default noProps props) = false
      /\ deployOptions (default noProps props) = None
      /\ this = finish (default noProps props)
                  (initialApi parent id (default noProps props))).
Proof.
  change (new parent id props) with (new parent id (Some (default noProps props))).
  generalize (default noProps props). clear props. intros props Hnew.
  pose proof (construct_outcome parent id props) as Hout.
  rewrite Hnew in Hout. cbn [outcome] in Hout.
  destruct (deployEnabled props) eqn:Hen.
  - left. split; [reflexivity|].
    destruct (Stage_urlForPath (deployedStage parent id props) "/")
      as [e|value] eqn:Hurl; [discriminate|].
    exists value. split; [reflexivity|].
    rewrite (construct_enabled_eq _ _ _ _ Hen Hurl) in Hnew. now injection Hnew.
  - right. split; [reflexivity|].
    destruct (deployOptions props) eqn:Hopt; [discriminate|].
    split; [reflexivity|].
    rewrite (construct_disabled_eq _ _ _ Hen Hopt) in Hnew. now injection Hnew.
Qed.

(** *** Further properties of the constructor *)

Lemma outcome_throw (r : Result ForeignError Api) e :
  r = Throw e <-> outcome r = Some e.
Proof.
  destruct r as [this|e']; cbn; split; try discriminate.
  - now intros [= ->].
  - now intros [= ->].
Qed.

(** The last step of the constructor keeps the fields and only adds
    children. *)
Lemma finish_fields (props : Props) (this : Api) :
  deploymentStage (finish props this) = deploymentStage this
  /\ latestDeployment (finish props this) = latestDeployment this
  /\ restApiId (finish props this) = restApiId this
  /\ path (finish props this) = path this
  /\ methods (finish props this) = methods this.
Proof. unfold withCloudWatchRole. now destruct (cloudWatchRoleEnabled props). Qed.

Lemma finish_children (props : Props) (this : Api) :
  children (finish props this)
  = children this
    ++ (if cloudWatchRoleEnabled props
        then [("CloudWatchRole",
               ChildRole
                 {| assumedBy := "apigateway.amazonaws.com";
                    managedPolicyArns :=
                      [Arn_fromComponents
                         {| service := "iam";
                            region := Some EmptyString;
                            account := Some "aws";
                            resource := Lit "policy";
                            sep := Some "/";
                            resourceName :=
                              Some "service-role/AmazonAPIGatewayPushToCloudWatchLogs" |}] |});
              ("Account",
               ChildAccount
                 {| cloudWatchRoleArn := roleArn (path this ++ ["CloudWatchRole"]);
                    dependencies := ["Resource"] |})]
        else []).
Proof.
  unfold withCloudWatchRole. destruct (cloudWatchRoleEnabled props).
  - cbn. now rewrite <- app_assoc.
  - now rewrite app_nil_r.
Qed.

Lemma find_app {A} (f : A -> bool) (l m : list A) :
  List.find f (l ++ m)
  = match List.find f l with
    | Some x => Some x
    | None => List.find f m
    end.
Proof.
  induction l as [|x l IH]; [reflexivity|]. cbn. now destruct (f x).
Qed.

(** Looking a child up among the children of the finished object. *)
Lemma findChild_finish name (props : Props) (this : Api) :
  findChild name (finish props this)
  = match findChild name this with
    | Some c => Some c
    | None =>
        snd <$> List.find (fun c => String.eqb (fst c) name)
                  (drop (length (children this)) (children (finish props this)))
    end.
Proof.
  unfold findChild. rewrite finish_children, find_app, drop_app_length.
  now destruct (List.find _ (children this)).
Qed.

(** X1.  Of the three errors of this file the constructor throws the
    configuration conflict only, and that exactly when [deploy] is false and
    [deployOptions] is supplied: it never throws the state error of
    [urlForPath], which it calls, nor the validation error of
    [executeApiArn]. *)
Theorem constructor_own_errors parent id (props : option Props) :
  (new parent id props = Throw ConfigurationConflict
   <-> deploy (default noProps props) = Some false
       /\ is_Some (deployOptions (default noProps props)))
  /\ new parent id props <> Throw StateError
  /\ (forall path, new parent id props <> Throw (ValidationError path)).
Proof.
  change (new parent id props) with (new parent id (Some (default noProps props))).
  generalize (default noProps props). clear props. intros props.
  pose proof (construct_outcome parent id props) as Hout.
  assert (Hne : forall e, new parent id (Some props) <> Throw e
                          <-> outcome (new parent id (Some props)) <> Some e)
    by (intros e; now rewrite outcome_throw).
  rewrite Hne, outcome_throw, Hout.
  setoid_rewrite Hne. rewrite Hout. clear Hout Hne.
  unfold deployEnabled.
  destruct (deploy props) as [[|]|];
    try (destruct (Stage_urlForPath (deployedStage parent id props) "/")
           as [e'|value]);
    try (destruct (deployOptions props) as [options|]).
  all: unfold is_Some; repeat split; intros;
    repeat match goal with
           | H : _ /\ _ |- _ => destruct H
           | H : exists _, _ |- _ => destruct H
           end;
    try congruence; eauto.
Qed.

(** X2.  With [deploy] false and no [deployOptions] the constructor returns
    whatever the stage collaborator does: the object has neither
    [latestDeployment] nor [deploymentStage], none of the deployment's
    children, and [url] throws the state error. *)
Theorem undeployed_has_no_stage parent id (props : option Props) :
  deploy (default noProps props) = Some false ->
  deployOptions (default noProps props) = None ->
  exists this : Api,
    new parent id props = Ok this
    /\ latestDeployment this = None
    /\ deploymentStage this = None
    /\ urlOf this = Throw StateError
    /\ findChild "Deployment" this = None
    /\ findChild "Endpoint" this = None
    /\ (forall name, findChild ("DeploymentStage." +:+ name) this = None).
Proof.
  change (new parent id props) with (new parent id (Some (default noProps props))).
  generalize (default noProps props). clear props. intros props Hdeploy Hopt.
  assert (Hdis : deployEnabled props = false)
    by (unfold deployEnabled; now rewrite Hdeploy).
  eexists. split; [apply (construct_disabled_eq _ _ _ Hdis Hopt)|].
  destruct (finish_fields props (initialApi parent id props))
    as (Hs & Hd & _).
  rewrite Hd. split; [reflexivity|]. split; [now rewrite Hs|].
  split; [unfold url, urlForPath; now rewrite Hs|].
  unfold withCloudWatchRole.
  destruct (cloudWatchRoleEnabled props); repeat split.
Qed.

(** X3.  On every object the constructor returns, [deploymentStage] is set
    exactly when [latestDeployment] is, exactly when [deploy] is enabled; and
    the stage then points to that deployment, which is the child
    'Deployment', was given [retainDeployments] and the id of this api, and
    the stage was given [deployOptions]. *)
Theorem stage_points_to_latest_deployment parent id (props : option Props)
    (this : Api) :
  new parent id props = Ok this ->
  (is_Some (deploymentStage this) <-> deployEnabled (default noProps props) = true)
  /\ (is_Some (latestDeployment this) <-> is_Some (deploymentStage this))
  /\ (forall stage,
        deploymentStage this = Some stage ->
        latestDeployment this = Some (stage_deployment stage)
        /\ findChild "Deployment" this
           = Some (ChildDeployment (stage_deployment stage))
        /\ findChild (stage_id stage) this = Some (ChildStage stage)
        /\ stage_options stage = deployOptions (default noProps props)
        /\ deployment_retainDeployments (stage_deployment stage)
           = retainDeployments (default noProps props)
        /\ deployment_api (stage_deployment stage) = restApiId this).
Proof.
  intros Hnew.
  destruct (construct_cases _ _ _ _ Hnew)
    as [(Hen & value & _ & ->) | (Hdis & _ & ->)];
    match goal with
    | |- context [finish ?p ?t] =>
        destruct (finish_fields p t) as (Hs & Hd & Hid & _)
    end;
    rewrite Hs, Hd, Hid; cbn [deploymentStage latestDeployment deployedApi
      addChild set_deploymentStage set_latestDeployment initialApi].
  - split; [split; eauto|]. split; [split; eauto|].
    intros stage [= <-]. split; [reflexivity|].
    rewrite !findChild_finish. repeat split.
    unfold findChild, deployedApi. cbn [children addChild set_deploymentStage
      set_latestDeployment initialApi app List.find fst snd].
    cbn [deployedStage stage_id].
    change (String.eqb "Resource" ("DeploymentStage." +:+ _)) with false.
    change (String.eqb "Deployment" ("DeploymentStage." +:+ _)) with false.
    cbv iota. now rewrite String.eqb_refl.
  - rewrite Hdis. split; [split; [intros [x Hx]|]; discriminate|].
    split; [split; intros [x Hx]; discriminate|]. intros stage Hx. discriminate.
Qed.

(** X4.  The value of the output 'Endpoint' is the url of the api: when the
    constructor deployed, [url] returns what the output was given; when it
    did not, there is no such output. *)
Theorem endpoint_output_is_url parent id (props : option Props) (this : Api) :
  new parent id props = Ok this ->
  (deployEnabled (default noProps props) = true ->
     exists value,
       findChild "Endpoint" this = Some (ChildOutput value)
       /\ urlOf this = Ok value)
  /\ (deployEnabled (default noProps props) = false ->
        findChild "Endpoint" this = None).
Proof.
  intros Hnew.
  destruct (construct_cases _ _ _ _ Hnew)
    as [(Hen & value & Hurl & ->) | (Hdis & _ & ->)].
  - split; [intros _|congruence].
    exists value. rewrite findChild_finish. split.
    + unfold findChild, deployedApi. cbn [children addChild set_deploymentStage
        set_latestDeployment initialApi app List.find fst snd].
      cbn [deployedStage stage_id].
      change (String.eqb ("DeploymentStage." +:+ _) "Endpoint") with false.
      reflexivity.
    + match goal with
      | |- context [finish ?p ?t] => destruct (finish_fields p t) as (Hs & _)
      end.
      unfold url, urlForPath. rewrite Hs.
      cbn [deploymentStage deployedApi addChild set_deploymentStage
           default from_option Datatypes.id].
      now rewrite Hurl.
  - split; [congruence|intros _].
    unfold withCloudWatchRole.
    now destruct (cloudWatchRoleEnabled (default noProps props)).
Qed.

(** X5.  The children of a new api are, in this order, 'Resource'; with
    [deploy] enabled 'Deployment', the stage and 'Endpoint'; with the
    CloudWatch role enabled 'CloudWatchRole' and 'Account'.  Whatever the
    stage name is, no two children have the same id. *)
Theorem child_ids_distinct parent id (props : option Props) (this : Api) :
  new parent id props = Ok this ->
  childIds this
  = ["Resource"]
    ++ (if deployEnabled (default noProps props)
        then ["Deployment";
              "DeploymentStage." +:+ deployStageName (default noProps props);
              "Endpoint"]
        else [])
    ++ (if cloudWatchRoleEnabled (default noProps props)
        then ["CloudWatchRole"; "Account"]
        else [])
  /\ NoDup (childIds this).
Proof.
  intros Hnew.
  assert (Hids :
    childIds this
    = ["Resource"]
      ++ (if deployEnabled (default noProps props)
          then ["Deployment";
                "DeploymentStage." +:+ deployStageName (default noProps props);
                "Endpoint"]
          else [])
      ++ (if cloudWatchRoleEnabled (default noProps props)
          then ["CloudWatchRole"; "Account"]
          else [])).
  { destruct (construct_cases _ _ _ _ Hnew)
      as [(Hen & value & _ & ->) | (Hdis & _ & ->)];
      unfold childIds; rewrite finish_children, fmap_app;
      [rewrite Hen | rewrite Hdis];
      now destruct (cloudWatchRoleEnabled (default noProps props)). }
  split; [exact Hids|]. rewrite Hids.
  generalize (deployStageName (default noProps props)). intros name.
  destruct (deployEnabled (default noProps props)),
    (cloudWatchRoleEnabled (default noProps props));
    cbn [app]; repeat (apply NoDup_cons; split);
    try apply NoDup_nil_2; rewrite ?elem_of_cons, ?elem_of_nil;
    intros H; repeat destruct H as [H|H]; try discriminate H; exact H.
Qed.

(** X6.  With the CloudWatch role enabled (the default) the api has a role
    that the API Gateway service assumes, with the one managed policy for
    pushing logs, and an account resource that is given the [roleArn] of that
    very role and depends on the 'Resource' child.  With it disabled there is
    neither. *)
Theorem cloudWatchRole_children parent id (props : option Props) (this : Api) :
  new parent id props = Ok this ->
  (cloudWatchRoleEnabled (default noProps props) = true ->
     findChild "CloudWatchRole" this
     = Some (ChildRole
               {| assumedBy := "apigateway.amazonaws.com";
                  managedPolicyArns :=
                    [Arn_fromComponents
                       {| service := "iam";
                          region := Some EmptyString;
                          account := Some "aws";
                          resource := Lit "policy";
                          sep := Some "/";
                          resourceName :=
                            Some "service-role/AmazonAPIGatewayPushToCloudWatchLogs" |}] |})
     /\ findChild "Account" this
        = Some (ChildAccount
                  {| cloudWatchRoleArn :=
                       roleArn (parent ++ [id; "CloudWatchRole"]);
                     dependencies := ["Resource"] |})
     /\ is_Some (findChild "Resource" this))
  /\ (cloudWatchRoleEnabled (default noProps props) = false ->
        findChild "CloudWatchRole" this = None
        /\ findChild "Account" this = None).
Proof.
  intros Hnew.
  destruct (construct_cases _ _ _ _ Hnew)
    as [(Hen & value & _ & ->) | (Hdis & _ & ->)];
    unfold withCloudWatchRole;
    destruct (cloudWatchRoleEnabled (default noProps props));
    (split; intros H; [|try discriminate H]); try discriminate H;
    unfold findChild, deployedApi;
    cbn [configureCloudWatchRole children addChild set_deploymentStage
         set_latestDeployment initialApi app path];
    rewrite <- ?app_assoc; cbn [app List.find fst snd];
    cbn [deployedStage stage_id];
    try change (String.eqb ("DeploymentStage." +:+ _) "CloudWatchRole") with false;
    try change (String.eqb ("DeploymentStage." +:+ _) "Account") with false;
    repeat split; eauto.
Qed.

(** X7.  The underlying resource is named [restApiName] when that is
    supplied and not empty, and by the id of the construct otherwise; the
    other properties reach it as they are in the configuration. *)
Theorem resource_gets_the_configuration parent id (props : option Props)
    (this : Api) :
  new parent id props = Ok this ->
  resourceProps this
  = Some {| cfn_restApiName :=
              match restApiName (default noProps props) with
              | Some EmptyString | None => id
              | Some name => name
              end;
            cfn_description := description (default noProps props);
            cfn_policy := policy (default noProps props);
            cfn_failOnWarnings := failOnWarnings (default noProps props);
            cfn_minimumCompressionSize :=
              minimumCompressionSize (default noProps props);
            cfn_binaryMediaTypes := binaryMediaTypes (default noProps props);
            cfn_endpointConfiguration := endpointTypes (default noProps props);
            cfn_apiKeySourceType := apiKeySourceType (default noProps props);
            cfn_cloneFrom := cloneFrom (default noProps props);
            cfn_parameters := parameters (default noProps props) |}
  /\ (forall name,
        restApiName (default noProps props) = Some name ->
        name <> EmptyString ->
        cfn_restApiName <$> resourceProps this = Some name)
  /\ (restApiName (default noProps props) = None
      \/ restApiName (default noProps props) = Some EmptyString ->
      cfn_restApiName <$> resourceProps this = Some id).
Proof.
  intros Hnew.
  assert (Hres : resourceProps this
                 = Some {| cfn_restApiName :=
                             restApiNameOrId (default noProps props) id;
                           cfn_description := description (default noProps props);
                           cfn_policy := policy (default noProps props);
                           cfn_failOnWarnings := failOnWarnings (default noProps props);
                           cfn_minimumCompressionSize :=
                             minimumCompressionSize (default noProps props);
                           cfn_binaryMediaTypes := binaryMediaTypes (default noProps props);
                           cfn_endpointConfiguration := endpointTypes (default noProps props);
                           cfn_apiKeySourceType := apiKeySourceType (default noProps props);
                           cfn_cloneFrom := cloneFrom (default noProps props);
                           cfn_parameters := parameters (default noProps props) |}).
  { unfold resourceProps.
    destruct (construct_cases _ _ _ _ Hnew)
      as [(_ & value & _ & ->) | (_ & _ & ->)];
      now rewrite findChild_finish. }
  rewrite Hres. unfold restApiNameOrId. split; [reflexivity|]. split.
  - intros name -> Hne. now destruct name.
  - intros [-> | ->]; reflexivity.
Qed.

(** *** executeApiArn and the errors *)

(** X8.  [executeApiArn] returns exactly when the path begins with a slash;
    the ARN is then made for the service 'execute-api' from the id of the api
    and the resource name 'stage/method' followed by the path.  The empty
    path, when given, is rejected: the default applies to an omitted path
    only. *)
Theorem executeApiArn_returns_iff (this : Api) method path stage :
  (returns (arnFor this method (Some path) stage)
   <-> exists rest, path = "/" +:+ rest)
  /\ (forall rest,
        path = "/" +:+ rest ->
        arnFor this method (Some path) stage
        = Ok (Arn_fromComponents
                {| service := "execute-api";
                   resource := restApiId this;
                   sep := Some "/";
                   resourceName :=
                     Some (default "*" stage +:+ "/" +:+ default "*" method
                           +:+ "/" +:+ rest);
                   region := None;
                   account := None |}))
  /\ arnFor this method (Some EmptyString) stage
     = Throw (ValidationError EmptyString).
Proof.
  assert (Hok : forall rest,
             path = "/" +:+ rest ->
             arnFor this method (Some path) stage
             = Ok (Arn_fromComponents
                     {| service := "execute-api";
                        resource := restApiId this;
                        sep := Some "/";
                        resourceName :=
                          Some (default "*" stage +:+ "/" +:+ default "*" method
                                +:+ "/" +:+ rest);
                        region := None;
                        account := None |})).
  { intros rest ->. unfold executeApiArn.
    cbn [default from_option Datatypes.id].
    now rewrite (proj2 (startsWith_slash _)) by eauto. }
  split; [|split; [exact Hok|reflexivity]]. split.
  - intros [arn Harn].
    destruct (startsWith "/" path) eqn:Hs; [now apply startsWith_slash|].
    rewrite (executeApiArn_bad_path _ _ _ _ Hs) in Harn. discriminate.
  - intros [rest Hrest]. rewrite (Hok rest Hrest). now eexists.
Qed.

Lemma append_quote_inj (a b : string) : a +:+ "'" = b +:+ "'" -> a = b.
Proof.
  revert b. induction a as [|c a IH]; intros [|d b] H; cbn in H.
  - reflexivity.
  - injection H as _ H. now destruct b.
  - injection H as _ H. now destruct a.
  - injection H as -> H. f_equal. now apply IH.
Qed.

(** X9.  The messages of the three errors tell them apart: they are
    different from one another whatever the rejected path is, and the
    message of the validation error determines the path it quotes. *)
Theorem messages_tell_errors_apart (F : Type) (foreign_message : F -> string)
    (path path' : string) :
  message foreign_message StateError
  <> message foreign_message ConfigurationConflict
  /\ message foreign_message StateError
     <> message foreign_message (ValidationError path)
  /\ message foreign_message ConfigurationConflict
     <> message foreign_message (ValidationError path)
  /\ (message foreign_message (ValidationError path)
      = message foreign_message (ValidationError path') ->
      path = path').
Proof.
  split; [discriminate|]. split; [discriminate|]. split; [discriminate|].
  cbn. intros H. apply append_quote_inj.
  repeat (injection H as H). exact H.
Qed.

End Facts.
End ApiGatewayFacts.

(** ** Properties of [Group] *)
Module IamFacts.
Import Iam.

Section Facts.

Context {PolicyStatement : Type}.

#[local] Abbreviation Group := (@Iam.Group).
#[local] Abbreviation Heap := (@Iam.Heap PolicyStatement).

(** *** The managed policies *)

Lemma read_push l x (h : Heap) :
  read l (arrays (push l x h)) = read l (arrays h) ++ [x].
Proof. unfold read, push. cbn [arrays]. apply lookup_total_insert_eq. Qed.

Lemma read_push_ne l l' x (h : Heap) :
  l <> l' -> read l' (arrays (push l x h)) = read l' (arrays h).
Proof. intros Hne. unfold read, push. cbn [arrays]. now apply lookup_total_insert_ne. Qed.

Lemma attachAll_cons arn arns (this : Group) (h : Heap) :
  attachAll (arn :: arns) this h
  = attachAll arns this (push (managedPolicies this) arn h).
Proof. reflexivity. Qed.

Lemma attachAll_group arns (this : Group) (h : Heap) :
  fst (attachAll arns this h) = this.
Proof.
  revert h. induction arns as [|arn arns IH]; intros h; [reflexivity|].
  rewrite attachAll_cons. apply IH.
Qed.

(** The array grows by the attached ARNs, in call order. *)
Lemma attachAll_read arns (this : Group) (h : Heap) :
  read (managedPolicies this) (arrays (snd (attachAll arns this h)))
  = read (managedPolicies this) (arrays h) ++ arns.
Proof.
  revert h. induction arns as [|arn arns IH]; intros h.
  - cbn. now rewrite app_nil_r.
  - rewrite attachAll_cons, IH, read_push, <- app_assoc. reflexivity.
Qed.

Lemma attachAll_others arns (this : Group) (h : Heap) :
  policies (snd (attachAll arns this h)) = policies h
  /\ users (snd (attachAll arns this h)) = users h
  /\ calls (snd (attachAll arns this h)) = calls h.
Proof.
  revert h. induction arns as [|arn arns IH]; intros h; [easy|].
  rewrite attachAll_cons. apply (IH (push (managedPolicies this) arn h)).
Qed.

(** A group built without [managedPolicyArns] starts with a new, empty
    array. *)
Lemma construct_without_arns parent name props (h0 : Heap) this h :
  props_managedPolicyArns (default noGroupProps props) = None ->
  Group_constructor parent name props h0 = (this, h) ->
  arrays h0 !! managedPolicies this = None
  /\ read (managedPolicies this) (arrays h) = [].
Proof.
  unfold Group_constructor. cbv zeta. intros ->. unfold newArray.
  intros [= <- <-]. cbn [managedPolicies arrays]. split.
  - apply not_elem_of_dom, is_fresh.
  - unfold read. apply lookup_total_insert_eq.
Qed.

(** A group built with [managedPolicyArns] shares the caller's array. *)
Lemma construct_with_arns parent name props (h0 : Heap) this h l :
  props_managedPolicyArns (default noGroupProps props) = Some l ->
  Group_constructor parent name props h0 = (this, h) ->
  managedPolicies this = l /\ h = h0.
Proof.
  unfold Group_constructor. cbv zeta. intros ->. now intros [= <- <-].
Qed.

(** C6.  [attachManagedPolicy] called for each of [arns] leaves the group's
    fields as they are and appends [arns] to the managed-policy list, in call
    order and whatever they are (equal or not, few or many): the list grows by
    exactly [length arns] entries.  On a group built without managed policies
    the list is then [arns] itself. *)
Theorem attachManagedPolicy_appends arns (this : Group) (h : Heap) :
  fst (attachAll arns this h) = this
  /\ read (managedPolicies this) (arrays (snd (attachAll arns this h)))
     = read (managedPolicies this) (arrays h) ++ arns
  /\ length (read (managedPolicies this) (arrays (snd (attachAll arns this h))))
     = length (read (managedPolicies this) (arrays h)) + length arns
  /\ (forall parent name props h0,
        props_managedPolicyArns (default noGroupProps props) = None ->
        Group_constructor parent name props h0 = (this, h) ->
        read (managedPolicies this) (arrays (snd (attachAll arns this h))) = arns
        /\ length (read (managedPolicies this)
                     (arrays (snd (attachAll arns this h))))
           = length arns).
Proof.
  split; [apply attachAll_group|]. split; [apply attachAll_read|].
  split; [now rewrite attachAll_read, length_app|].
  intros parent name props h0 Hnone Hnew.
  destruct (construct_without_arns _ _ _ _ _ _ Hnone Hnew) as [_ Hempty].
  now rewrite attachAll_read, Hempty.
Qed.

(** *** The resource reads the list when it is asked *)

Lemma construct_managedPolicyArnsOf parent name props (h0 : Heap) this h :
  Group_constructor parent name props h0 = (this, h) ->
  forall h' : Heap,
    managedPolicyArnsOf this h'
    = match read (managedPolicies this) (arrays h') with
      | [] => None
      | arn :: arns => Some (arn :: arns)
      end.
Proof.
  unfold Group_constructor. cbv zeta.
  destruct (props_managedPolicyArns (default noGroupProps props)) as [l|];
    [|unfold newArray]; intros [= <- <-] h';
    unfold managedPolicyArnsOf, resolve, undefinedIfEmpty;
    cbn [groupChildren cfn_managedPolicyArns managedPolicies];
    now destruct (read _ (arrays h')).
Qed.

(** C10.  The resource of a group holds its [managedPolicyArns] as a value
    that is computed, when it is read, from the list as it is then: after
    [attachManagedPolicy] was called for each of [arns], reading it gives the
    initial entries followed by [arns], every attached ARN is in it, and an
    empty list reads as unset, not as an empty array. *)
Theorem managedPolicyArns_is_deferred parent name props (h0 : Heap) this h arns :
  Group_constructor parent name props h0 = (this, h) ->
  let h' := snd (attachAll arns this h) in
  let all := read (managedPolicies this) (arrays h) ++ arns in
  managedPolicyArnsOf this h' = match all with [] => None | _ => Some all end
  /\ (forall arn, arn ∈ arns ->
        exists l, managedPolicyArnsOf this h' = Some l /\ arn ∈ l)
  /\ (read (managedPolicies this) (arrays h') = [] ->
        managedPolicyArnsOf this h' = None)
  /\ managedPolicyArnsOf this h' <> Some [].
Proof.
  intros Hnew h' all.
  pose proof (construct_managedPolicyArnsOf _ _ _ _ _ _ Hnew h') as Hread.
  assert (Hall : read (managedPolicies this) (arrays h') = all)
    by apply attachAll_read.
  rewrite Hall in Hread. rewrite Hread, Hall.
  split; [now destruct all|]. split; [|split].
  - intros arn Hin. assert (Hin' : arn ∈ all) by (apply elem_of_app; auto).
    destruct all as [|a l]; [now apply elem_of_nil in Hin'|]. eauto.
  - now intros ->.
  - now destruct all.
Qed.

(** *** The default policy *)

Lemma addToPolicy_existing st (this : Group) (h : Heap) p :
  defaultPolicy this = Some p ->
  addToPolicy st this h = (this, Policy_addStatement p st h).
Proof. intros H. unfold addToPolicy. rewrite H. cbn. now rewrite H. Qed.

(** The first call creates the policy and attaches it. *)
Lemma addToPolicy_first st (this : Group) (h : Heap) :
  defaultPolicy this = None ->
  let p := fresh (dom (policies h)) in
  addToPolicy st this h
  = (set_defaultPolicy (Some p) (addGroupChild "DefaultPolicy" (GroupPolicy p) this),
     Policy_addStatement p st
       (Policy_attachToGroup p (groupPath this)
          (snd (newPolicy (groupPath this) "DefaultPolicy" h)))).
Proof. intros H. unfold addToPolicy. now rewrite H. Qed.

Lemma addAllToPolicy_cons st sts (this : Group) (h : Heap) :
  addAllToPolicy (st :: sts) this h
  = addAllToPolicy sts (fst (addToPolicy st this h)) (snd (addToPolicy st this h)).
Proof.
  unfold addAllToPolicy. cbn [fold_left fst snd].
  now destruct (addToPolicy st this h).
Qed.

(** Once the default policy exists, [addToPolicy] only adds statements to
    it. *)
Lemma addAllToPolicy_existing sts (this : Group) (h : Heap) p :
  defaultPolicy this = Some p ->
  addAllToPolicy sts this h
  = (this, fold_left (fun h st => Policy_addStatement p st h) sts h).
Proof.
  intros Hp. revert h. induction sts as [|st sts IH]; intros h; [reflexivity|].
  rewrite addAllToPolicy_cons, (addToPolicy_existing _ _ _ _ Hp). apply IH.
Qed.

Lemma addStatement_all sts p (h : Heap) o :
  policies h !! p = Some o ->
  fold_left (fun h st => Policy_addStatement p st h) sts h
  = {| arrays := arrays h;
       policies :=
         <[p := {| policy_parent := policy_parent o;
                   policy_id := policy_id o;
                   statements := statements o ++ sts;
                   policy_groups := policy_groups o |}]> (policies h);
       users := users h;
       calls := calls h ++ (Call_addStatement p <$> sts) |}.
Proof.
  revert h o. induction sts as [|st sts IH]; intros h o Ho.
  - destruct h as [a ps us cs], o as [pp pid ss gs]. cbn in *.
    rewrite !app_nil_r. f_equal. symmetry. now apply insert_id.
  - cbn [fold_left].
    erewrite IH by (unfold Policy_addStatement, record; cbn [policies];
                    rewrite lookup_alter_eq, Ho; reflexivity).
    unfold Policy_addStatement, record.
    cbn [arrays policies users calls policy_parent policy_id statements
         policy_groups fmap list_fmap].
    rewrite insert_alter_eq, <- !app_assoc. reflexivity.
Qed.

Lemma created_app (cs1 cs2 : list (@Call PolicyStatement)) :
  created (cs1 ++ cs2) = created cs1 ++ created cs2.
Proof. apply omap_app. Qed.

Lemma created_addStatement p (sts : list PolicyStatement) :
  created (Call_addStatement p <$> sts) = [].
Proof. induction sts as [|st sts IH]; [reflexivity|exact IH]. Qed.

(** C5.  On a group without default policy, [addToPolicy] called for [st]
    and then for each of [sts] creates one policy, at the first call, makes
    it the group's [defaultPolicy] and its child 'DefaultPolicy', attaches it
    to the group once, and adds all the statements to it, in order.  On a
    group that has its default policy, no policy is created any more. *)
Theorem addToPolicy_single_policy st sts (this : Group) (h : Heap) :
  let p := fresh (dom (policies h)) in
  let r := addAllToPolicy (st :: sts) this h in
  (defaultPolicy this = None ->
     policies h !! p = None
     /\ defaultPolicy (fst r) = Some p
     /\ groupChildren (fst r) = groupChildren this ++ [("DefaultPolicy", GroupPolicy p)]
     /\ policies (snd r)
        = <[p := {| policy_parent := groupPath this;
                    policy_id := "DefaultPolicy";
                    statements := st :: sts;
                    policy_groups := [groupPath this] |}]> (policies h)
     /\ size (policies (snd r)) = S (size (policies h))
     /\ calls (snd r)
        = calls h
          ++ [Call_newPolicy p (groupPath this) "DefaultPolicy";
              Call_attachToGroup p (groupPath this)]
          ++ (Call_addStatement p <$> st :: sts)
     /\ created (calls (snd r)) = created (calls h) ++ [p])
  /\ (forall q,
        defaultPolicy this = Some q ->
        fst r = this
        /\ calls (snd r) = calls h ++ (Call_addStatement q <$> st :: sts)
        /\ created (calls (snd r)) = created (calls h)).
Proof.
  intros p r. split.
  - intros Hnone.
    assert (Hfresh : policies h !! p = None) by apply not_elem_of_dom, is_fresh.
    subst r. rewrite addAllToPolicy_cons, (addToPolicy_first _ _ _ Hnone).
    fold p. cbn [fst snd].
    rewrite (addAllToPolicy_existing sts
               (set_defaultPolicy (Some p)
                  (addGroupChild "DefaultPolicy" (GroupPolicy p) this)) _ p eq_refl).
    cbn [fst snd defaultPolicy groupChildren set_defaultPolicy addGroupChild groupPath].
    erewrite addStatement_all
      by (unfold Policy_addStatement, Policy_attachToGroup, newPolicy, record;
          cbn [policies snd];
          rewrite !lookup_alter_eq, lookup_insert_eq; reflexivity).
    unfold Policy_addStatement, Policy_attachToGroup, newPolicy, record.
    cbn [arrays policies users calls policy_parent policy_id statements
         policy_groups app snd].
    rewrite !insert_alter_eq, insert_insert_eq.
    split; [exact Hfresh|]. do 2 (split; [reflexivity|]).
    split; [reflexivity|]. split; [now apply map_size_insert_None|].
    rewrite <- !app_assoc. cbn [app].
    split; [reflexivity|].
    rewrite created_app. f_equal.
    unfold created. cbn [omap list_omap]. f_equal.
    apply created_addStatement.
  - intros q Hq. subst r. rewrite (addAllToPolicy_existing _ _ _ _ Hq).
    cbn [fst snd]. split; [reflexivity|].
    assert (Hcalls : forall (l : list PolicyStatement) (h1 : Heap),
               calls (fold_left (fun h st => Policy_addStatement q st h) l h1)
               = calls h1 ++ (Call_addStatement q <$> l)).
    { induction l as [|x l IH]; intros h1; cbn [fold_left].
      - cbn. now rewrite app_nil_r.
      - rewrite IH. unfold Policy_addStatement, record. cbn [calls].
        rewrite <- app_assoc. reflexivity. }
    rewrite Hcalls. split; [reflexivity|].
    rewrite created_app, created_addStatement. apply app_nil_r.
Qed.

(** *** Users *)

(** C9.  [addUser] is the user's [addToGroup] called with this group, once,
    and nothing else: the group object and its managed-policy list are as
    before, no policy is touched, and only the user's own membership list
    grows. *)
Theorem addUser_frame user (this : Group) (h : Heap) :
  let r := addUser user this h in
  snd r = User_addToGroup user (groupPath this) h
  /\ fst r = this
  /\ arrays (snd r) = arrays h
  /\ read (managedPolicies this) (arrays (snd r))
     = read (managedPolicies this) (arrays h)
  /\ policies (snd r) = policies h
  /\ calls (snd r) = calls h ++ [Call_addToGroup user (groupPath this)]
  /\ users (snd r) !! user
     = (fun o => {| user_groups := user_groups o ++ [groupPath this] |})
         <$> users h !! user
  /\ (forall u, u <> user -> users (snd r) !! u = users h !! u).
Proof.
  cbv zeta. unfold addUser, User_addToGroup, record.
  cbn [fst snd arrays policies users calls].
  do 6 (split; [reflexivity|]). split.
  - apply lookup_alter_eq.
  - intros u Hne. now apply lookup_alter_ne.
Qed.

(** *** Groups and the arrays they are given *)

Lemma attachAll_read_ne arns (this : Group) (h : Heap) l :
  managedPolicies this <> l ->
  read l (arrays (snd (attachAll arns this h))) = read l (arrays h).
Proof.
  intros Hne. revert h. induction arns as [|arn arns IH]; intros h; [reflexivity|].
  rewrite attachAll_cons, IH. now apply read_push_ne.
Qed.

(** What the constructor does to the heap. *)
Lemma construct_heap parent name props (h0 : Heap) this h :
  Group_constructor parent name props h0 = (this, h) ->
  policies h = policies h0
  /\ users h = users h0
  /\ calls h = calls h0
  /\ match props_managedPolicyArns (default noGroupProps props) with
     | Some l => managedPolicies this = l /\ arrays h = arrays h0
     | None =>
         arrays h0 !! managedPolicies this = None
         /\ arrays h = <[managedPolicies this := []]> (arrays h0)
     end.
Proof.
  unfold Group_constructor. cbv zeta.
  destruct (props_managedPolicyArns (default noGroupProps props)) as [l|];
    [|unfold newArray]; intros [= <- <-]; cbn [managedPolicies arrays policies users calls];
    repeat split.
  apply not_elem_of_dom, is_fresh.
Qed.

(** X10.  Two groups built from the same array of managed policy ARNs share
    it with each other and with the caller, empty or not: what is attached to
    one of them is in the list of both and in what both resources read. *)
Theorem groups_share_the_callers_array parent1 name1 parent2 name2 props1 props2
    l (h0 h1 h2 : Heap) g1 g2 arns :
  props_managedPolicyArns (default noGroupProps props1) = Some l ->
  props_managedPolicyArns (default noGroupProps props2) = Some l ->
  Group_constructor parent1 name1 props1 h0 = (g1, h1) ->
  Group_constructor parent2 name2 props2 h1 = (g2, h2) ->
  let h' := snd (attachAll arns g1 h2) in
  managedPolicies g1 = l
  /\ managedPolicies g2 = l
  /\ read l (arrays h') = read l (arrays h0) ++ arns
  /\ managedPolicyArnsOf g2 h' = managedPolicyArnsOf g1 h'
  /\ (arns <> [] ->
      managedPolicyArnsOf g2 h' = Some (read l (arrays h0) ++ arns)).
Proof.
  intros Hl1 Hl2 Hnew1 Hnew2 h'.
  destruct (construct_with_arns _ _ _ _ _ _ _ Hl1 Hnew1) as [Hm1 ->].
  destruct (construct_with_arns _ _ _ _ _ _ _ Hl2 Hnew2) as [Hm2 ->].
  assert (Hread : read l (arrays h') = read l (arrays h0) ++ arns)
    by (subst h'; rewrite <- Hm1; apply attachAll_read).
  rewrite (construct_managedPolicyArnsOf _ _ _ _ _ _ Hnew1 h'),
    (construct_managedPolicyArnsOf _ _ _ _ _ _ Hnew2 h'), Hm1, Hm2, Hread.
  repeat (split; [reflexivity|]).
  intros Hne. destruct (read l (arrays h0) ++ arns) eqn:Happ; [|reflexivity].
  apply app_eq_nil in Happ as [_ ->]. now destruct Hne.
Qed.

(** X11.  Two groups built without managed policy ARNs have an array each:
    what is attached to the first is in its own list only, and the resource of
    the second still reads its list as unset. *)
Theorem groups_without_arns_are_separate parent1 name1 parent2 name2 props1 props2
    (h0 h1 h2 : Heap) g1 g2 arns :
  props_managedPolicyArns (default noGroupProps props1) = None ->
  props_managedPolicyArns (default noGroupProps props2) = None ->
  Group_constructor parent1 name1 props1 h0 = (g1, h1) ->
  Group_constructor parent2 name2 props2 h1 = (g2, h2) ->
  let h' := snd (attachAll arns g1 h2) in
  managedPolicies g1 <> managedPolicies g2
  /\ read (managedPolicies g1) (arrays h') = arns
  /\ read (managedPolicies g2) (arrays h') = []
  /\ managedPolicyArnsOf g2 h' = None.
Proof.
  intros Hl1 Hl2 Hnew1 Hnew2 h'.
  destruct (construct_heap _ _ _ _ _ _ Hnew1) as (_ & _ & _ & H1).
  destruct (construct_heap _ _ _ _ _ _ Hnew2) as (_ & _ & _ & H2).
  rewrite Hl1 in H1. rewrite Hl2 in H2.
  destruct H1 as [_ Ha1], H2 as [Hfresh2 Ha2].
  assert (Hne : managedPolicies g1 <> managedPolicies g2).
  { intros Heq. rewrite <- Heq, Ha1, lookup_insert_eq in Hfresh2. discriminate. }
  assert (H2empty : read (managedPolicies g2) (arrays h') = []).
  { subst h'. rewrite (attachAll_read_ne _ _ _ _ Hne). unfold read.
    rewrite Ha2. apply lookup_total_insert_eq. }
  split; [exact Hne|]. split; [|split; [exact H2empty|]].
  - subst h'. rewrite attachAll_read. unfold read.
    rewrite Ha2, lookup_total_insert_ne, Ha1, lookup_total_insert_eq by congruence.
    reflexivity.
  - now rewrite (construct_managedPolicyArnsOf _ _ _ _ _ _ Hnew2 h'), H2empty.
Qed.

(** *** Managed policies and the default policy do not interfere *)

Lemma push_addToPolicy st (this : Group) l x (h : Heap) :
  addToPolicy st this (push l x h)
  = (fst (addToPolicy st this h), push l x (snd (addToPolicy st this h))).
Proof.
  destruct (defaultPolicy this) as [p|] eqn:Hp.
  - now rewrite !(addToPolicy_existing _ _ _ _ Hp).
  - pose proof (addToPolicy_first st this h Hp) as H1.
    pose proof (addToPolicy_first st this (push l x h) Hp) as H2.
    cbv zeta in H1, H2. now rewrite H1, H2.
Qed.

Lemma managedPolicies_addToPolicy st (this : Group) (h : Heap) :
  managedPolicies (fst (addToPolicy st this h)) = managedPolicies this.
Proof.
  destruct (defaultPolicy this) as [p|] eqn:Hp.
  - now rewrite (addToPolicy_existing _ _ _ _ Hp).
  - pose proof (addToPolicy_first st this h Hp) as H1.
    cbv zeta in H1. now rewrite H1.
Qed.

Lemma push_addAllToPolicy sts (this : Group) l x (h : Heap) :
  addAllToPolicy sts this (push l x h)
  = (fst (addAllToPolicy sts this h), push l x (snd (addAllToPolicy sts this h))).
Proof.
  revert this h. induction sts as [|st sts IH]; intros this h; [reflexivity|].
  rewrite !addAllToPolicy_cons, push_addToPolicy. cbn [fst snd]. apply IH.
Qed.

Lemma managedPolicies_addAllToPolicy sts (this : Group) (h : Heap) :
  managedPolicies (fst (addAllToPolicy sts this h)) = managedPolicies this.
Proof.
  revert this h. induction sts as [|st sts IH]; intros this h; [reflexivity|].
  now rewrite addAllToPolicy_cons, IH, managedPolicies_addToPolicy.
Qed.

(** X12.  Attaching managed policies and adding statements to the default
    policy can be done in either order: the group and the heap are the same
    in the end. *)
Theorem attach_and_addToPolicy_commute arns sts (this : Group) (h : Heap) :
  addAllToPolicy sts (fst (attachAll arns this h)) (snd (attachAll arns this h))
  = attachAll arns (fst (addAllToPolicy sts this h))
      (snd (addAllToPolicy sts this h)).
Proof.
  revert h. induction arns as [|arn arns IH]; intros h.
  - cbn [attachAll fold_left fst snd]. now destruct (addAllToPolicy sts this h).
  - rewrite !attachAll_cons, IH, push_addAllToPolicy. cbn [fst snd].
    now rewrite managedPolicies_addAllToPolicy.
Qed.

(** *** What no sequence of calls changes *)

Lemma operateAll_snoc os o (this : Group) (h : Heap) :
  operateAll (os ++ [o]) this h = operate (operateAll os this h) o.
Proof. unfold operateAll. now rewrite fold_left_app. Qed.

Lemma created_snoc (cs : list (@Call PolicyStatement)) c :
  created (cs ++ [c])
  = created cs ++ match c with Call_newPolicy p _ _ => [p] | _ => [] end.
Proof. rewrite created_app. now destruct c. Qed.

(** X13.  Whatever methods are called on a group that has no default policy
    yet, in whatever order: its path, name, arn, principal and array of
    managed policies stay the ones it has; it gets at most one child more,
    'DefaultPolicy', which is its [defaultPolicy]; at most one policy is ever
    created for it; and it has a default policy exactly when [addToPolicy] was
    among the calls. *)
Theorem group_invariants os (this : Group) (h : Heap) :
  defaultPolicy this = None ->
  let r := operateAll os this h in
  groupPath (fst r) = groupPath this
  /\ groupName (fst r) = groupName this
  /\ groupArn (fst r) = groupArn this
  /\ principal (fst r) = principal this
  /\ managedPolicies (fst r) = managedPolicies this
  /\ groupChildren (fst r)
     = groupChildren this
       ++ match defaultPolicy (fst r) with
          | Some p => [("DefaultPolicy", GroupPolicy p)]
          | None => []
          end
  /\ created (calls (snd r))
     = created (calls h)
       ++ match defaultPolicy (fst r) with
          | Some p => [p]
          | None => []
          end
  /\ (is_Some (defaultPolicy (fst r)) <-> exists st, Op_addToPolicy st ∈ os).
Proof.
  intros Hnone. cbv zeta. induction os as [|o os IH] using rev_ind.
  - cbn. rewrite Hnone, !app_nil_r. repeat (split; [reflexivity|]).
    split; [intros [p Hp]; discriminate|]. intros [st Hin].
    now apply elem_of_nil in Hin.
  - rewrite operateAll_snoc.
    destruct (operateAll os this h) as [g h1]. cbn [fst snd] in IH.
    destruct IH as (Hpath & Hname & Harn & Hprincipal & Harray & Hchildren
                    & Hcreated & Hdefault).
    assert (Hother : forall o',
               (forall st, o' <> Op_addToPolicy st) ->
               (exists st, Op_addToPolicy st ∈ os ++ [o'])
               <-> exists st, Op_addToPolicy st ∈ os).
    { intros o' Ho'. split; intros [st Hin]; exists st.
      - apply elem_of_app in Hin as [Hin|Hin]; [exact Hin|].
        apply list_elem_of_singleton in Hin. now destruct (Ho' st).
      - apply elem_of_app. now left. }
    destruct o as [arn|policy|user|st]; cbn [operate fst snd].
    + unfold attachManagedPolicy, push. cbn [fst snd calls].
      rewrite Hother by (intros ?; discriminate).
      repeat (split; [assumption|]); assumption.
    + unfold attachInlinePolicy, AttachedPolicies_attach, Policy_attachToGroup,
        record.
      cbn [fst snd calls groupPath groupName groupArn principal managedPolicies
           groupChildren defaultPolicy].
      rewrite Hother, !created_snoc, !app_nil_r by (intros ?; discriminate).
      repeat (split; [assumption|]); assumption.
    + unfold addUser, User_addToGroup, record. cbn [fst snd calls].
      rewrite Hother, created_snoc, app_nil_r by (intros ?; discriminate).
      repeat (split; [assumption|]); assumption.
    + assert (Hnow : (exists st', Op_addToPolicy st' ∈ os ++ [Op_addToPolicy st]))
        by (exists st; apply elem_of_app; right; apply list_elem_of_singleton;
            reflexivity).
      destruct (defaultPolicy g) as [p|] eqn:Hp.
      * rewrite (addToPolicy_existing _ _ _ _ Hp).
        unfold Policy_addStatement, record. cbn [fst snd calls].
        rewrite Hp, created_snoc, app_nil_r.
        repeat (split; [assumption|]). split; [eauto|]. intros _. eauto.
      * pose proof (addToPolicy_first st g h1 Hp) as Hfirst.
        cbv zeta in Hfirst. rewrite Hfirst.
        unfold Policy_addStatement, Policy_attachToGroup, newPolicy, record.
        cbn [fst snd calls groupPath groupName groupArn principal
             managedPolicies groupChildren defaultPolicy set_defaultPolicy
             addGroupChild].
        rewrite !created_snoc, !app_nil_r, Hchildren, Hcreated, !app_nil_r.
        repeat (split; [assumption || reflexivity|]).
        split; [intros _; exact Hnow | intros _; eauto].
Qed.

(** X15.  A new group has the name and the arn of its resource, its arn as
    principal, no default policy and no attached policy; its resource was
    given [groupName] and [path] as they are in the configuration.  The
    constructor calls nothing in the policies and users, and leaves every
    array that exists as it is; without [managedPolicyArns] the group's own
    array is a new one and the resource reads its list as unset. *)
Theorem group_constructor_initial parent name props (h0 : Heap) this h :
  Group_constructor parent name props h0 = (this, h) ->
  groupPath this = parent ++ [name]
  /\ groupName this = Tok (Ref (parent ++ [name; "Resource"]))
  /\ groupArn this = Tok (GetAtt (parent ++ [name; "Resource"]) "Arn")
  /\ principal this = groupArn this
  /\ defaultPolicy this = None
  /\ attachedPolicies this = []
  /\ (exists r,
        groupChildren this = [("Resource", GroupResource r)]
        /\ cfn_groupName r = props_groupName (default noGroupProps props)
        /\ cfn_path r = props_path (default noGroupProps props))
  /\ policies h = policies h0
  /\ users h = users h0
  /\ calls h = calls h0
  /\ (forall l, is_Some (arrays h0 !! l) -> arrays h !! l = arrays h0 !! l)
  /\ (props_managedPolicyArns (default noGroupProps props) = None ->
      arrays h0 !! managedPolicies this = None
      /\ managedPolicyArnsOf this h = None).
Proof.
  intros Hnew.
  destruct (construct_heap _ _ _ _ _ _ Hnew) as (Hp & Hu & Hc & Harrays).
  pose proof (construct_managedPolicyArnsOf _ _ _ _ _ _ Hnew h) as Hread.
  revert Hnew Harrays Hread. unfold Group_constructor. cbv zeta.
  destruct (props_managedPolicyArns (default noGroupProps props)) as [l|];
    [|unfold newArray]; intros [= <- <-];
    cbn [groupPath groupName groupArn principal defaultPolicy attachedPolicies
         groupChildren managedPolicies arrays];
    intros Harrays Hread; do 6 (split; [reflexivity|]);
    (split; [eexists; repeat split|]); do 3 (split; [assumption|]).
  - split; [reflexivity|]. discriminate.
  - destruct Harrays as [Hfresh _]. split.
    + intros l [x Hx]. apply lookup_insert_ne. intros <-.
      cbn [managedPolicies] in Hfresh. congruence.
    + intros _. split; [exact Hfresh|]. rewrite Hread. unfold read.
      cbn [arrays]. now rewrite lookup_total_insert_eq.
Qed.

End Facts.
End IamFacts.

(** ** The properties at concrete inputs *)
Module Examples.
Import Fixtures.

(** *** RestApi *)

Lemma deploy_sets_deployment_and_stage_witness :
  exists this,
    (ApiGateway.deploy (default defaults None) = None
     \/ ApiGateway.deploy (default defaults None) = Some true)
    /\ newRestApi "api" None = Ok this
    /\ is_Some (ApiGateway.latestDeployment this)
    /\ is_Some (ApiGateway.deploymentStage this)
    /\ returns (ApiGateway.url stageUrl this)
    /\ ApiGateway.url stageUrl this
       = ApiGateway.urlForPath stageUrl this (Some "/").
Proof.
  eexists. split; [left; reflexivity|]. split; [reflexivity|].
  apply (ApiGatewayFacts.deploy_sets_deployment_and_stage
           arnOf stageUrl [] "api" None);
    [left; reflexivity | reflexivity].
Defined.

(** C2 does not hold as stated: on an api that was deployed, and so has its
    [deploymentStage] set, [urlForPath('pets')] does not return; the stage
    rejects the path and its error comes out, not the state error. *)
Lemma urlForPath_fails_with_a_stage_set :
  exists this,
    newRestApi "api" None = Ok this
    /\ is_Some (ApiGateway.deploymentStage this)
    /\ ~ returns (ApiGateway.urlForPath stageUrl this (Some "pets"))
    /\ ApiGateway.urlForPath stageUrl this (Some "pets")
       = Throw (Foreign "Path must begin with /").
Proof.
  eexists. split; [reflexivity|]. split; [eexists; reflexivity|].
  split; [|reflexivity]. intros [value Hvalue]. discriminate Hvalue.
Qed.

Lemma conflict_and_missing_stage_witness :
  exists this deployed stage,
    ApiGateway.deploy (ApiGateway.with_deploy (Some false) (named (Some "beta")))
    = Some false
    /\ ApiGateway.deployOptions
         (ApiGateway.with_deploy (Some false) (named (Some "beta")))
       = Some (options (Some "beta"))
    /\ newRestApi "api"
         (Some (ApiGateway.with_deploy (Some false) (named (Some "beta"))))
       = Throw ConfigurationConflict
    /\ newRestApi "api" (Some (ApiGateway.with_deploy (Some false) defaults))
       = Ok this
    /\ ApiGateway.deploymentStage this = None
    /\ ApiGateway.url stageUrl this = Throw StateError
    /\ ApiGateway.urlForPath stageUrl this (Some "/pets")
       = Throw StateError
    /\ newRestApi "api" None = Ok deployed
    /\ ApiGateway.deploymentStage deployed = Some stage
    /\ stageUrl stage "/pets" = inr "https://api.example/DeploymentStage.prod/pets"
    /\ ApiGateway.urlForPath stageUrl deployed (Some "/pets")
       = Ok "https://api.example/DeploymentStage.prod/pets"
    /\ stageUrl stage "pets" = inl "Path must begin with /"
    /\ ApiGateway.urlForPath stageUrl deployed (Some "pets")
       = Throw (Foreign "Path must begin with /").
Proof.
  destruct (ApiGatewayFacts.conflict_and_missing_stage
              (Integration := unit) (Method := string) (PolicyDocument := unit)
              arnOf stageUrl)
    as (Hconflict & Hpath & Hurl & _ & Hreturns & Hthrows).
  do 3 eexists. do 2 (split; [reflexivity|]). split.
  { apply (Hconflict [] "api" _ (options (Some "beta"))); reflexivity. }
  split; [reflexivity|]. split; [reflexivity|].
  split; [apply Hurl; reflexivity|]. split; [apply Hpath; reflexivity|].
  split; [reflexivity|]. split; [reflexivity|]. split; [reflexivity|].
  split; [eapply Hreturns; reflexivity|]. split; [reflexivity|].
  eapply Hthrows; reflexivity.
Defined.

Lemma executeApiArn_defaults_and_validation_witness :
  exists this,
    newRestApi "api" None = Ok this
    /\ "pets" <> EmptyString
    /\ (forall rest, "pets" <> "/" +:+ rest)
    /\ ApiGateway.executeApiArn (ForeignError := string) arnOf
         this None None None
       = ApiGateway.executeApiArn arnOf this
           (Some "*") (Some "/*") (Some "*")
    /\ ApiGateway.executeApiArn (ForeignError := string) arnOf
         this (Some "GET") (Some "pets") (Some "prod")
       = Throw (ValidationError "pets").
Proof.
  eexists. split; [reflexivity|].
  assert (Hslash : forall rest, "pets" <> "/" +:+ rest) by (intros rest; discriminate).
  split; [discriminate|]. split; [exact Hslash|].
  match goal with
  | |- ApiGateway.executeApiArn _ ?this _ _ _ = _ /\ _ =>
      destruct (ApiGatewayFacts.executeApiArn_defaults_and_validation
                  (ForeignError := string) arnOf this)
        as (Hdefault & _ & Hpath)
  end.
  split; [exact Hdefault|].
  apply Hpath; [discriminate | exact Hslash].
Defined.

Lemma validate_counts_registrations_witness :
  exists this,
    newRestApi "api" None = Ok this
    /\ ApiGateway.validate
         (ApiGateway.performAll [ApiGateway.Assign_defaultIntegration None] this)
       = ["The REST API doesn't contain any methods"]
    /\ ApiGateway.validate
         (ApiGateway.performAll
            [ApiGateway.Call_attachMethod "GET /";
             ApiGateway.Assign_defaultIntegration None] this)
       = [].
Proof.
  eexists. split; [reflexivity|]. split.
  - eapply (ApiGatewayFacts.validate_counts_registrations
              arnOf stageUrl [] "api" None);
      reflexivity.
  - eapply (ApiGatewayFacts.validate_counts_registrations
              arnOf stageUrl [] "api" None);
      [reflexivity | cbn; lia].
Defined.

(** C7 does not hold as stated: a size below zero, and one above 10485760,
    are both accepted, and reach the underlying resource as they are. *)
Lemma minimumCompressionSize_not_checked :
  (-1 < 0)%Z /\ (10485760 < 10485761)%Z
  /\ (exists this,
        newRestApi "api" (Some (undeployed (-1))) = Ok this
        /\ ApiGateway.cfn_minimumCompressionSize
             <$> ApiGateway.resourceProps this = Some (Some (-1)%Z))
  /\ (exists this,
        newRestApi "api"
          (Some (ApiGateway.with_minimumCompressionSize (Some 10485761%Z) defaults))
        = Ok this
        /\ ApiGateway.cfn_minimumCompressionSize
             <$> ApiGateway.resourceProps this = Some (Some 10485761%Z)).
Proof.
  split; [lia|]. split; [lia|].
  split; eexists; (split; [reflexivity|]); reflexivity.
Qed.

Lemma minimumCompressionSize_is_forwarded_witness :
  exists this,
    newRestApi "api"
      (Some (ApiGateway.with_minimumCompressionSize (Some 1024%Z) defaults))
    = Ok this
    /\ ApiGateway.cfn_minimumCompressionSize
         <$> ApiGateway.resourceProps this = Some (Some 1024%Z).
Proof.
  eexists. split; [reflexivity|].
  eapply (ApiGatewayFacts.minimumCompressionSize_is_forwarded
            arnOf stageUrl [] "api" defaults (Some 1024%Z)).
  reflexivity.
Defined.

(** C8 does not hold as stated: the configurations with stage name '' and
    with stage name 'prod' differ only in the stage name, and so do the one
    without stage name and the one with 'prod'; the stages of all three have
    the same identifier. *)
Lemma stage_identifier_shared_by_two_names :
  exists a b c,
    newRestApi "api" (Some (named (Some EmptyString))) = Ok a
    /\ newRestApi "api" (Some (named (Some "prod"))) = Ok b
    /\ newRestApi "api" (Some (named None)) = Ok c
    /\ Some EmptyString <> Some "prod"
    /\ None <> Some "prod"
    /\ ApiGateway.stageConstructId a = ApiGateway.stageConstructId b
    /\ ApiGateway.stageConstructId c = ApiGateway.stageConstructId b
    /\ ApiGateway.stageConstructId b = Some "DeploymentStage.prod".
Proof.
  do 3 eexists. do 3 (split; [reflexivity|]).
  split; [discriminate|]. split; [discriminate|].
  repeat split; reflexivity.
Qed.

Lemma stage_identifier_embeds_effective_name_witness :
  exists a b,
    ApiGateway.deployEnabled (named (Some "beta")) = true
    /\ ApiGateway.deployEnabled (named None) = true
    /\ newRestApi "api" (Some (named (Some "beta"))) = Ok a
    /\ newRestApi "api" (Some (named None)) = Ok b
    /\ ApiGateway.stageConstructId a = Some "DeploymentStage.beta"
    /\ ApiGateway.stageConstructId b = Some "DeploymentStage.prod"
    /\ ApiGateway.stageConstructId a <> ApiGateway.stageConstructId b.
Proof.
  do 2 eexists. do 4 (split; [reflexivity|]).
  match goal with
  | |- ApiGateway.stageConstructId ?a = _ /\ ApiGateway.stageConstructId ?b = _ /\ _ =>
      destruct (ApiGatewayFacts.stage_identifier_embeds_effective_name
                  arnOf stageUrl [] "api"
                  (named (Some "beta")) (named None) a b
                  eq_refl eq_refl eq_refl eq_refl)
        as (Ha & Hb & _ & _ & Hne & _)
  end.
  split; [exact Ha|]. split; [exact Hb|].
  apply Hne. discriminate.
Defined.

(** *** Group *)

Lemma addToPolicy_single_policy_witness :
  let g := fst (admins emptyHeap) in
  let h := snd (admins emptyHeap) in
  let r := Iam.addAllToPolicy ["s3:GetObject"; "s3:PutObject"] g h in
  Iam.defaultPolicy g = None
  /\ size (Iam.policies (snd r)) = 1
  /\ Iam.created (Iam.calls (snd r)) = [fresh (dom (Iam.policies h))]
  /\ Iam.policies (snd r)
     = <[fresh (dom (Iam.policies h)) :=
           {| Iam.policy_parent := ["admins"];
              Iam.policy_id := "DefaultPolicy";
              Iam.statements := ["s3:GetObject"; "s3:PutObject"];
              Iam.policy_groups := [["admins"]] |}]> ∅.
Proof.
  intros g h r. subst r.
  destruct (IamFacts.addToPolicy_single_policy
              "s3:GetObject" ["s3:PutObject"] g h) as [Hfirst _].
  destruct (Hfirst eq_refl) as (_ & _ & _ & Hpolicies & Hsize & _ & Hcreated).
  split; [reflexivity|]. split; [exact Hsize|]. split; [exact Hcreated|].
  exact Hpolicies.
Defined.

Lemma attachManagedPolicy_appends_witness :
  let g := fst (admins emptyHeap) in
  let h := snd (admins emptyHeap) in
  let arn := "arn:aws:iam::aws:policy/ReadOnlyAccess" in
  Iam.props_managedPolicyArns (default (@Iam.noGroupProps) None) = None
  /\ admins emptyHeap = (g, h)
  /\ Iam.read (Iam.managedPolicies g)
       (Iam.arrays (snd (Iam.attachAll [arn; arn; arn] g h)))
     = [arn; arn; arn]
  /\ length (Iam.read (Iam.managedPolicies g)
               (Iam.arrays (snd (Iam.attachAll [arn; arn; arn] g h))))
     = 3.
Proof.
  intros g h arn. split; [reflexivity|]. split; [reflexivity|].
  destruct (IamFacts.attachManagedPolicy_appends [arn; arn; arn] g h)
    as (_ & _ & _ & Hnew).
  apply (Hnew [] "admins" None emptyHeap); reflexivity.
Defined.

Lemma addUser_frame_witness :
  let g := fst (admins oneUser) in
  let h := snd (admins oneUser) in
  let r := Iam.addUser 1%positive g h in
  2%positive <> 1%positive
  /\ fst r = g
  /\ Iam.users (snd r) !! 1%positive
     = (fun o => {| Iam.user_groups := Iam.user_groups o ++ [["admins"]] |})
         <$> Iam.users h !! 1%positive
  /\ Iam.users (snd r) !! 2%positive = Iam.users h !! 2%positive
  /\ Iam.calls (snd r) = [Iam.Call_addToGroup 1%positive ["admins"]].
Proof.
  intros g h r. subst r.
  destruct (IamFacts.addUser_frame 1%positive g h)
    as (_ & Hgroup & _ & _ & _ & Hcalls & Huser & Hothers).
  split; [discriminate|]. split; [exact Hgroup|]. split; [exact Huser|].
  split; [apply Hothers; discriminate | exact Hcalls].
Defined.

Lemma managedPolicyArns_is_deferred_witness :
  let g := fst (admins emptyHeap) in
  let h := snd (admins emptyHeap) in
  let arn := "arn:aws:iam::aws:policy/ReadOnlyAccess" in
  admins emptyHeap = (g, h)
  /\ Iam.managedPolicyArnsOf g h = None
  /\ Iam.managedPolicyArnsOf g (snd (Iam.attachAll [arn] g h)) = Some [arn].
Proof.
  intros g h arn. split; [reflexivity|].
  pose proof (IamFacts.managedPolicyArns_is_deferred
                [] "admins" None emptyHeap g h [] eq_refl) as (Hempty & _).
  pose proof (IamFacts.managedPolicyArns_is_deferred
                [] "admins" None emptyHeap g h [arn] eq_refl) as (Hone & _).
  split.
  - etransitivity; [exact Hempty|]. vm_compute. reflexivity.
  - etransitivity; [exact Hone|]. vm_compute. reflexivity.
Defined.


(** *** Further properties, RestApi *)

Lemma constructor_own_errors_witness :
  ApiGateway.deploy (ApiGateway.with_deploy (Some false) (named (Some "beta")))
  = Some false
  /\ is_Some (ApiGateway.deployOptions
                (ApiGateway.with_deploy (Some false) (named (Some "beta"))))
  /\ newRestApi "api"
       (Some (ApiGateway.with_deploy (Some false) (named (Some "beta"))))
     = Throw ConfigurationConflict
  /\ newRestApi "api" None <> Throw StateError
  /\ newRestApi "api" None <> Throw ConfigurationConflict.
Proof.
  destruct (ApiGatewayFacts.constructor_own_errors
              (Integration := unit) (Method := string) (PolicyDocument := unit)
              arnOf stageUrl [] "api"
              (Some (ApiGateway.with_deploy (Some false) (named (Some "beta")))))
    as (Hconflict & _).
  destruct (ApiGatewayFacts.constructor_own_errors
              (Integration := unit) (Method := string) (PolicyDocument := unit)
              arnOf stageUrl [] "api" None)
    as (Hdefault & Hstate & _).
  split; [reflexivity|]. split; [eexists; reflexivity|].
  split; [apply Hconflict; split; [reflexivity | eexists; reflexivity]|].
  split; [exact Hstate|].
  intros H. apply Hdefault in H as [H _]. discriminate H.
Defined.

Lemma undeployed_has_no_stage_witness :
  ApiGateway.deploy (ApiGateway.with_deploy (Some false) defaults) = Some false
  /\ ApiGateway.deployOptions (ApiGateway.with_deploy (Some false) defaults) = None
  /\ exists this : Api,
      newRestApi "api" (Some (ApiGateway.with_deploy (Some false) defaults))
      = Ok this
      /\ ApiGateway.deploymentStage this = None
      /\ ApiGateway.url stageUrl this = Throw StateError.
Proof.
  split; [reflexivity|]. split; [reflexivity|].
  destruct (ApiGatewayFacts.undeployed_has_no_stage
              (Method := string) arnOf stageUrl [] "api"
              (Some (ApiGateway.with_deploy (Some false) defaults))
              eq_refl eq_refl)
    as (this & Hnew & _ & Hstage & Hurl & _).
  exists this. split; [exact Hnew|]. split; [exact Hstage | exact Hurl].
Defined.

Lemma stage_points_to_latest_deployment_witness :
  exists this stage,
    newRestApi "api" (Some (named (Some "beta"))) = Ok this
    /\ ApiGateway.deploymentStage this = Some stage
    /\ ApiGateway.latestDeployment this
       = Some (ApiGateway.stage_deployment stage)
    /\ ApiGateway.stage_options stage = Some (options (Some "beta")).
Proof.
  do 2 eexists. split; [reflexivity|]. split; [reflexivity|].
  match goal with
  | |- ApiGateway.latestDeployment ?this = _ /\ _ =>
      destruct (ApiGatewayFacts.stage_points_to_latest_deployment
                  arnOf stageUrl [] "api" (Some (named (Some "beta"))) this
                  eq_refl)
        as (_ & _ & Hstage)
  end.
  destruct (Hstage _ eq_refl) as (Hlatest & _ & _ & Hoptions & _).
  split; [exact Hlatest | exact Hoptions].
Defined.

Lemma endpoint_output_is_url_witness :
  exists this value,
    newRestApi "api" None = Ok this
    /\ ApiGateway.deployEnabled (default defaults None) = true
    /\ ApiGateway.findChild "Endpoint" this = Some (ApiGateway.ChildOutput value)
    /\ ApiGateway.url stageUrl this = Ok value.
Proof.
  destruct (newRestApi "api" None) as [this|e] eqn:Hnew; [|discriminate Hnew].
  destruct (ApiGatewayFacts.endpoint_output_is_url
              arnOf stageUrl [] "api" None this Hnew) as [Hdeployed _].
  destruct (Hdeployed eq_refl) as (value & Hchild & Hurl).
  exists this, value. split; [reflexivity|]. split; [reflexivity|].
  split; [exact Hchild | exact Hurl].
Defined.

Lemma child_ids_distinct_witness :
  exists this,
    newRestApi "api" (Some (named (Some "Endpoint"))) = Ok this
    /\ ApiGateway.childIds this
       = ["Resource"; "Deployment"; "DeploymentStage.Endpoint"; "Endpoint";
          "CloudWatchRole"; "Account"]
    /\ NoDup (ApiGateway.childIds this).
Proof.
  eexists. split; [reflexivity|].
  eapply (ApiGatewayFacts.child_ids_distinct
            arnOf stageUrl [] "api" (Some (named (Some "Endpoint")))).
  reflexivity.
Defined.

Lemma cloudWatchRole_children_witness :
  exists this plain,
    newRestApi "api" None = Ok this
    /\ ApiGateway.cloudWatchRoleEnabled (default defaults None) = true
    /\ ApiGateway.findChild "CloudWatchRole" this
       = Some (ApiGateway.ChildRole
                 {| ApiGateway.assumedBy := "apigateway.amazonaws.com";
                    ApiGateway.managedPolicyArns :=
                      [{| service := "iam";
                          region := Some EmptyString;
                          account := Some "aws";
                          resource := Lit "policy";
                          sep := Some "/";
                          resourceName :=
                            Some "service-role/AmazonAPIGatewayPushToCloudWatchLogs" |}] |})
    /\ ApiGateway.findChild "Account" this
       = Some (ApiGateway.ChildAccount
                 {| ApiGateway.cloudWatchRoleArn :=
                      ApiGateway.roleArn ["api"; "CloudWatchRole"];
                    ApiGateway.dependencies := ["Resource"] |})
    /\ newRestApi "api" (Some unnamed) = Ok plain
    /\ ApiGateway.cloudWatchRoleEnabled unnamed = false
    /\ ApiGateway.findChild "CloudWatchRole" plain = None
    /\ ApiGateway.findChild "Account" plain = None.
Proof.
  do 2 eexists. split; [reflexivity|]. split; [reflexivity|].
  match goal with
  | |- ApiGateway.findChild _ ?this = _ /\ _ =>
      destruct (ApiGatewayFacts.cloudWatchRole_children
                  arnOf stageUrl [] "api" None this eq_refl) as [Henabled _]
  end.
  destruct (Henabled eq_refl) as (Hrole & Haccount & _).
  split; [exact Hrole|]. split; [exact Haccount|].
  split; [reflexivity|]. split; [reflexivity|].
  eapply (ApiGatewayFacts.cloudWatchRole_children
            arnOf stageUrl [] "api" (Some unnamed)); reflexivity.
Defined.

Lemma resource_gets_the_configuration_witness :
  exists this,
    newRestApi "api" (Some unnamed) = Ok this
    /\ (ApiGateway.restApiName unnamed = None
        \/ ApiGateway.restApiName unnamed = Some EmptyString)
    /\ ApiGateway.cfn_restApiName <$> ApiGateway.resourceProps this = Some "api".
Proof.
  eexists. split; [reflexivity|]. split; [right; reflexivity|].
  eapply (ApiGatewayFacts.resource_gets_the_configuration
            arnOf stageUrl [] "api" (Some unnamed));
    [reflexivity | right; reflexivity].
Defined.

Lemma executeApiArn_returns_iff_witness :
  exists this,
    newRestApi "api" None = Ok this
    /\ "/pets" = "/" +:+ "pets"
    /\ ApiGateway.executeApiArn (ForeignError := string) arnOf this
         (Some "GET") (Some "/pets") None
       = Ok {| service := "execute-api";
               resource := Tok (Ref ["api"; "Resource"]);
               sep := Some "/";
               resourceName := Some "*/GET/pets";
               region := None;
               account := None |}.
Proof.
  eexists. split; [reflexivity|]. split; [reflexivity|].
  match goal with
  | |- ApiGateway.executeApiArn _ ?this _ _ _ = _ =>
      destruct (ApiGatewayFacts.executeApiArn_returns_iff
                  (ForeignError := string) arnOf this
                  (Some "GET") "/pets" None) as (_ & Hok & _)
  end.
  exact (Hok "pets" eq_refl).
Defined.

Lemma messages_tell_errors_apart_witness :
  message (fun e : string => e) (ValidationError "pets")
  = message (fun e : string => e) (ValidationError "pets")
  /\ "pets" = "pets"
  /\ message (fun e : string => e) StateError
     <> message (fun e : string => e) ConfigurationConflict.
Proof.
  destruct (ApiGatewayFacts.messages_tell_errors_apart
              string (fun e => e) "pets" "pets") as (Hkinds & _ & _ & Hpath).
  split; [reflexivity|]. split; [exact (Hpath eq_refl) | exact Hkinds].
Defined.

(** *** Further properties, Group *)

Lemma groups_share_the_callers_array_witness :
  let g1 := fst (Iam.Group_constructor [] "admins" withArns callersArray) in
  let g2 := fst (Iam.Group_constructor [] "devs" withArns callersArray) in
  let h' := snd (Iam.attachAll ["arn:b"] g1 callersArray) in
  Iam.props_managedPolicyArns (default Iam.noGroupProps withArns) = Some 7%positive
  /\ Iam.Group_constructor [] "admins" withArns callersArray = (g1, callersArray)
  /\ Iam.Group_constructor [] "devs" withArns callersArray = (g2, callersArray)
  /\ ["arn:b"] <> []
  /\ Iam.managedPolicyArnsOf g2 h'
     = Some (Iam.read 7%positive (Iam.arrays callersArray) ++ ["arn:b"]).
Proof.
  intros g1 g2 h'. do 3 (split; [reflexivity|]). split; [discriminate|].
  destruct (IamFacts.groups_share_the_callers_array
              [] "admins" [] "devs" withArns withArns 7%positive
              callersArray callersArray callersArray g1 g2 ["arn:b"]
              eq_refl eq_refl eq_refl eq_refl) as (_ & _ & _ & _ & Hshared).
  apply Hshared. discriminate.
Defined.

Lemma groups_without_arns_are_separate_witness :
  let g1 := fst (admins emptyHeap) in
  let h1 := snd (admins emptyHeap) in
  let g2 := fst (Iam.Group_constructor [] "devs" None h1) in
  let h2 := snd (Iam.Group_constructor [] "devs" None h1) in
  let h' := snd (Iam.attachAll ["arn:b"] g1 h2) in
  Iam.props_managedPolicyArns (default (@Iam.noGroupProps) None) = None
  /\ admins emptyHeap = (g1, h1)
  /\ Iam.Group_constructor [] "devs" None h1 = (g2, h2)
  /\ Iam.read (Iam.managedPolicies g1) (Iam.arrays h') = ["arn:b"]
  /\ Iam.managedPolicyArnsOf g2 h' = None.
Proof.
  intros g1 h1 g2 h2 h'. do 3 (split; [reflexivity|]).
  destruct (IamFacts.groups_without_arns_are_separate
              [] "admins" [] "devs" None None emptyHeap h1 h2 g1 g2 ["arn:b"]
              eq_refl eq_refl eq_refl eq_refl) as (_ & Hown & _ & Hother).
  split; [exact Hown | exact Hother].
Defined.

Lemma group_invariants_witness :
  let g := fst (admins emptyHeap) in
  let h := snd (admins emptyHeap) in
  let r := Iam.operateAll
             [Iam.Op_addToPolicy "s3:GetObject";
              Iam.Op_attachManagedPolicy "arn:b";
              Iam.Op_addUser 1%positive;
              Iam.Op_addToPolicy "s3:PutObject"] g h in
  Iam.defaultPolicy g = None
  /\ Iam.managedPolicies (fst r) = Iam.managedPolicies g
  /\ is_Some (Iam.defaultPolicy (fst r))
  /\ Iam.created (Iam.calls (snd r))
     = Iam.created (Iam.calls h)
       ++ match Iam.defaultPolicy (fst r) with
          | Some p => [p]
          | None => []
          end.
Proof.
  intros g h r. subst r.
  destruct (IamFacts.group_invariants
              [Iam.Op_addToPolicy "s3:GetObject";
               Iam.Op_attachManagedPolicy "arn:b";
               Iam.Op_addUser 1%positive;
               Iam.Op_addToPolicy "s3:PutObject"] g h eq_refl)
    as (_ & _ & _ & _ & Harray & _ & Hcreated & Hdefault).
  split; [reflexivity|]. split; [exact Harray|]. split; [|exact Hcreated].
  apply Hdefault. exists "s3:GetObject". apply elem_of_cons. now left.
Defined.

Lemma group_constructor_initial_witness :
  let g := fst (admins emptyHeap) in
  let h := snd (admins emptyHeap) in
  admins emptyHeap = (g, h)
  /\ Iam.props_managedPolicyArns (default (@Iam.noGroupProps) None) = None
  /\ Iam.principal g = Tok (GetAtt ["admins"; "Resource"] "Arn")
  /\ Iam.managedPolicyArnsOf g h = None
  /\ Iam.calls h = [].
Proof.
  intros g h.
  destruct (IamFacts.group_constructor_initial [] "admins" None emptyHeap g h
              eq_refl)
    as (_ & _ & Harn & Hprincipal & _ & _ & _ & _ & _ & Hcalls & _ & Hnew).
  split; [reflexivity|]. split; [reflexivity|].
  split; [now rewrite Hprincipal, Harn|].
  split; [apply Hnew; reflexivity | exact Hcalls].
Defined.

End Examples.
